(** * Atrium: identity, space and subscription contracts

    A shallow embedding of the three Move modules of the Atrium package
    ([atrium::identity], [atrium::space], [atrium::subscription]) and the
    properties of the access-control core that follow from the code.

    Conventions of the embedding:
    - a [u64] is an [N] below [2^64]; Move arithmetic is checked, so [+] and
      [*] abort the transaction on overflow instead of wrapping;
    - an [address] and an object [ID] are numbers;
    - a transaction is a computation over the transaction context (sender,
      fresh-id counter) and the event log that either returns a value or
      fails; a failed transaction commits nothing;
    - a [&mut] parameter is passed in and returned;
    - a [sui::table::Table] is an association list in insertion order whose
      [add] aborts on a key that is already present;
    - every struct has a field [id: UID] in the source; records here call it
      [uid] (or [<struct>_uid] for the secondary structs of a module). *)

From Stdlib Require Import NArith List String Bool Lia.
Import ListNotations.
Open Scope N_scope.

(** ** The Move runtime *)

Definition u64 := N.
Definition address := N.
Definition ID := N.

Definition MAX_U64 : u64 := 18446744073709551615.

Inductive module_id :=
| m_identity | m_space | m_subscription
| m_dynamic_field | m_balance | m_option.

(** An [assert!]/[abort] carries the aborting module and its code; overflow
    of checked arithmetic is an error of the virtual machine. *)
Inductive failure :=
| Abort (m : module_id) (code : u64)
| ArithmeticError.

Inductive outcome (A : Type) :=
| Ok (a : A)
| Fail (f : failure).
Arguments Ok {A} a.
Arguments Fail {A} f.

Record TxContext := mkTxContext {
  tx_sender : address;
  tx_hash : N;
  ids_created : u64;
}.

Record Clock := mkClock { timestamp_ms : u64 }.

(** Events of the three modules, fields in the order of the source. *)
Inductive Event :=
| IdentityMinted (identity_id : ID) (owner : address) (username : string)
                 (created_at : u64)
| AvatarBound (identity_id : ID) (owner : address) (avatar_blob_id : string)
| SpaceInitialized (space_id marketplace_kiosk_id : ID) (creator : address)
                   (name : string) (subscription_price created_at : u64)
| SpaceConfigUpdated (space_id : ID) (creator : address)
                     (config_quilt : string) (updated_at : u64)
| FanAvatarAdded (space_id : ID) (fan_address : address)
                 (avatar_blob_id : string)
| ContentAdded (space_id blob_object_id : ID) (blob_id : string)
               (content_type : N) (title description : string)
               (encrypted : bool) (price : u64) (tags : list string)
               (creator : address) (created_at : u64)
| SubscriptionCreated (subscription_id space_id : ID) (subscriber : address)
                      (expires_at amount_paid : u64)
| SubscriptionRenewed (subscription_id : ID) (new_expires_at amount_paid : u64).

Record tx_state := mkTxState {
  ctx : TxContext;
  events : list Event;
}.

Definition tx (A : Type) : Type := tx_state -> outcome (A * tx_state).

Definition ret {A} (a : A) : tx A := fun s => Ok (a, s).

Definition bind {A B} (c : tx A) (k : A -> tx B) : tx B :=
  fun s => match c s with
           | Ok (a, s') => k a s'
           | Fail f => Fail f
           end.

Declare Scope tx_scope.
Delimit Scope tx_scope with tx.
Notation "'let*' x ':=' c 'in' k" := (bind c (fun x => k))
  (at level 10, x pattern, c at level 100, k at level 200) : tx_scope.
Notation "c ';;' k" := (bind c (fun _ => k))
  (at level 100, k at level 200, right associativity) : tx_scope.
Open Scope tx_scope.

Definition abort {A} (m : module_id) (code : u64) : tx A :=
  fun _ => Fail (Abort m code).

Definition assert (b : bool) (m : module_id) (code : u64) : tx unit :=
  if b then ret tt else abort m code.

Definition add_u64 (a b : u64) : tx u64 :=
  fun s => if a + b <=? MAX_U64 then Ok (a + b, s) else Fail ArithmeticError.

Definition mul_u64 (a b : u64) : tx u64 :=
  fun s => if a * b <=? MAX_U64 then Ok (a * b, s) else Fail ArithmeticError.

Definition ctx_sender : tx address :=
  fun s => Ok (tx_sender (ctx s), s).

Definition emit (e : Event) : tx unit :=
  fun s => Ok (tt, mkTxState (ctx s) (events s ++ [e])).

(** [object::new]: a fresh id is derived from the transaction digest and the
    number of ids created so far; the derivation (a hash in the runtime) is
    kept injective by pairing the two. *)
Definition derive_id (hash : N) (n : u64) : ID := hash * (MAX_U64 + 1) + n.

Definition object_new : tx ID :=
  fun s =>
    let c := ctx s in
    Ok (derive_id (tx_hash c) (ids_created c),
        mkTxState (mkTxContext (tx_sender c) (tx_hash c) (ids_created c + 1))
                  (events s)).

(** ** [sui::table] *)

Module table.

Definition EFieldAlreadyExists : u64 := 0.
Definition EFieldDoesNotExist : u64 := 1.

Record Table (V : Type) := mkTable {
  uid : ID;
  entries : list (N * V);
}.
Arguments mkTable {V} uid entries.
Arguments uid {V} t.
Arguments entries {V} t.

Definition new {V} : tx (Table V) :=
  let* i := object_new in ret (mkTable i []).

Fixpoint lookup {V} (k : N) (l : list (N * V)) : option V :=
  match l with
  | [] => None
  | (k', v) :: l' => if k =? k' then Some v else lookup k l'
  end.

Definition contains {V} (t : Table V) (k : N) : bool :=
  match lookup k (entries t) with Some _ => true | None => false end.

Definition add {V} (t : Table V) (k : N) (v : V) : tx (Table V) :=
  if contains t k then abort m_dynamic_field EFieldAlreadyExists
  else ret (mkTable (uid t) (entries t ++ [(k, v)])).

Definition borrow {V} (t : Table V) (k : N) : tx V :=
  match lookup k (entries t) with
  | Some v => ret v
  | None => abort m_dynamic_field EFieldDoesNotExist
  end.

(** Dropping the binding of [k]. *)
Fixpoint erase {V} (k : N) (l : list (N * V)) : list (N * V) :=
  match l with
  | [] => []
  | (k', v) :: l' => if k =? k' then erase k l' else (k', v) :: erase k l'
  end.

Definition remove {V} (t : Table V) (k : N) : tx (V * Table V) :=
  match lookup k (entries t) with
  | Some v => ret (v, mkTable (uid t) (erase k (entries t)))
  | None => abort m_dynamic_field EFieldDoesNotExist
  end.

Fixpoint replace {V} (k : N) (v : V) (l : list (N * V)) : list (N * V) :=
  match l with
  | [] => []
  | (k', v') :: l' =>
      if k =? k' then (k', v) :: l' else (k', v') :: replace k v l'
  end.

(** Writing back the value behind a [borrow_mut] of key [k]. *)
Definition store {V} (t : Table V) (k : N) (v : V) : Table V :=
  mkTable (uid t) (replace k v (entries t)).

Definition keys {V} (t : Table V) : list N := map fst (entries t).

End table.

(** ** [sui::coin] *)

Module coin.

Definition ENotEnough : u64 := 2.

Record Coin := mkCoin { uid : ID; value : u64 }.

(** [payment.split(amount, ctx)]: the pair of the coin split off and what
    is left of [payment]. *)
Definition split (c : Coin) (amount : u64) : tx (Coin * Coin) :=
  assert (amount <=? value c) m_balance ENotEnough;;
  let* i := object_new in
  ret (mkCoin i amount, mkCoin (uid c) (value c - amount)).

End coin.

(** [std::string::is_empty]: the string has no bytes. *)
Definition is_empty (s : string) : bool := Nat.eqb (String.length s) 0.

(** [std::option::destroy_some]. *)
Definition EOPTION_NOT_SET : u64 := 262145.

Definition destroy_some {A} (o : option A) : tx A :=
  match o with
  | Some a => ret a
  | None => abort m_option EOPTION_NOT_SET
  end.

Definition is_some {A} (o : option A) : bool :=
  match o with Some _ => true | None => false end.

(** ** [atrium::identity] *)

Module identity.

Definition EIdentityAlreadyExists : u64 := 0.
Definition ENotIdentityOwner : u64 := 1.
Definition EImageRequired : u64 := 2.

Record Identity := mkIdentity {
  uid : ID;
  owner : address;
  username : string;
  bio : string;
  avatar_blob_id : option string;
  image_blob_id : string;
  created_at : u64;
  is_creator : bool;
}.

Record IdentityRegistry := mkIdentityRegistry {
  registry_uid : ID;
  identities : table.Table ID;
  total_identities : u64;
  total_creators : u64;
}.

(** The registry part of [init]; the [Display] object it also sets up
    plays no role in the registries. *)
Definition init : tx IdentityRegistry :=
  let* i := object_new in
  let* t := table.new in
  ret (mkIdentityRegistry i t 0 0).

Definition mint_identity (registry : IdentityRegistry)
    (username bio avatar_blob_id image_blob_id : string) (clock : Clock)
    : tx (Identity * IdentityRegistry) :=
  let* sender := ctx_sender in
  assert (negb (table.contains (identities registry) sender))
         m_identity EIdentityAlreadyExists;;
  assert (negb (is_empty image_blob_id)) m_identity EImageRequired;;
  let avatar_opt :=
    if is_empty avatar_blob_id then None else Some avatar_blob_id in
  let* i := object_new in
  let identity :=
    mkIdentity i sender username bio avatar_opt image_blob_id
               (timestamp_ms clock) false in
  let identity_id := uid identity in
  let* ids := table.add (identities registry) sender identity_id in
  let* total := add_u64 (total_identities registry) 1 in
  emit (IdentityMinted identity_id sender (identity.username identity)
                       (identity.created_at identity));;
  ret (identity,
       mkIdentityRegistry (registry_uid registry) ids total
                          (total_creators registry)).

Definition bind_avatar (identity : Identity) (avatar_blob_id : string)
    : tx Identity :=
  let* sender := ctx_sender in
  assert (owner identity =? sender) m_identity ENotIdentityOwner;;
  let identity :=
    mkIdentity (uid identity) (owner identity) (username identity)
               (bio identity) (Some avatar_blob_id)
               (image_blob_id identity) (created_at identity)
               (is_creator identity) in
  emit (AvatarBound (uid identity) (owner identity) avatar_blob_id);;
  ret identity.

Definition update_image (identity : Identity) (image_blob_id : string)
    : tx Identity :=
  let* sender := ctx_sender in
  assert (owner identity =? sender) m_identity ENotIdentityOwner;;
  assert (negb (is_empty image_blob_id)) m_identity EImageRequired;;
  ret (mkIdentity (uid identity) (owner identity) (username identity)
                  (bio identity) (avatar_blob_id identity) image_blob_id
                  (created_at identity) (is_creator identity)).

Definition update_bio (identity : Identity) (bio : string) : tx Identity :=
  let* sender := ctx_sender in
  assert (owner identity =? sender) m_identity ENotIdentityOwner;;
  ret (mkIdentity (uid identity) (owner identity) (username identity)
                  bio (avatar_blob_id identity) (image_blob_id identity)
                  (created_at identity) (is_creator identity)).

Definition has_identity (registry : IdentityRegistry) (addr : address)
    : bool :=
  table.contains (identities registry) addr.

Definition get_identity_id (registry : IdentityRegistry) (addr : address)
    : option ID :=
  table.lookup addr (table.entries (identities registry)).

Definition increment_creator_count (registry : IdentityRegistry)
    : tx IdentityRegistry :=
  let* total := add_u64 (total_creators registry) 1 in
  ret (mkIdentityRegistry (registry_uid registry) (identities registry)
                          (total_identities registry) total).

End identity.

(** ** [atrium::space] *)

Module space.

Definition EInsufficientPayment : u64 := 0.
Definition ENotOwner : u64 := 1.

Record Space := mkSpace {
  uid : ID;
  name : string;
  description : string;
  cover_image : string;
  config_quilt : string;
  video_blob_ids : list string;
  subscription_price : u64;
  creator : address;
  marketplace_kiosk_id : ID;
  created_at : u64;
  updated_at : u64;
}.

Record SpaceOwnership := mkSpaceOwnership {
  ownership_uid : ID;
  space_id : ID;
}.

Record FanAvatar := mkFanAvatar {
  owner : address;
  avatar_blob_id : string;
}.

Record FanRegistry := mkFanRegistry {
  fan_registry_uid : ID;
  fans : table.Table (table.Table FanAvatar);
}.

Record SpaceRegistry := mkSpaceRegistry {
  space_registry_uid : ID;
  spaces : list ID;
  total_spaces : u64;
}.

Definition SPACE_INIT_FEE : u64 := 100000000.

Definition init : tx (SpaceRegistry * FanRegistry) :=
  let* i := object_new in
  let registry := mkSpaceRegistry i [] 0 in
  let* j := object_new in
  let* t := table.new in
  ret (registry, mkFanRegistry j t).

Definition get_space_ownership_space_id (ownership : SpaceOwnership) : ID :=
  space_id ownership.

(** What [initialize_space] produces: the ownership capability, the
    change, the ids of the new kiosk and of its owner capability, the
    space that is shared, the fee sent to the treasury, and the two
    registries behind the [&mut] references. *)
Record Initialized := mkInitialized {
  ownership : SpaceOwnership;
  change : coin.Coin;
  marketplace_kiosk : ID;
  marketplace_kiosk_cap : ID;
  shared_space : Space;
  fee : coin.Coin;
  registry_after : SpaceRegistry;
  identity_registry_after : identity.IdentityRegistry;
}.

Definition initialize_space (registry : SpaceRegistry)
    (identity_registry : identity.IdentityRegistry)
    (name description cover_image config_quilt : string)
    (subscription_price : u64) (payment : coin.Coin) (clock : Clock)
    : tx Initialized :=
  let* sender := ctx_sender in
  assert (SPACE_INIT_FEE <=? coin.value payment)
         m_space EInsufficientPayment;;
  let* (fee, payment) := coin.split payment SPACE_INIT_FEE in
  let* kiosk := object_new in
  let* kiosk_cap := object_new in
  let* i := object_new in
  let space :=
    mkSpace i name description cover_image config_quilt []
            subscription_price sender kiosk
            (timestamp_ms clock) (timestamp_ms clock) in
  let sid := uid space in
  let* total := add_u64 (total_spaces registry) 1 in
  let* identity_registry :=
    identity.increment_creator_count identity_registry in
  let* j := object_new in
  let ownership := mkSpaceOwnership j sid in
  emit (SpaceInitialized sid kiosk sender name subscription_price
                         (timestamp_ms clock));;
  ret (mkInitialized ownership payment kiosk kiosk_cap space fee
         (mkSpaceRegistry (space_registry_uid registry)
                          (spaces registry ++ [sid]) total)
         identity_registry).

(** An optional field update: [if (o.is_some()) { field = o.destroy_some() }]. *)
Definition or_keep {A} (o : option A) (old : A) : A :=
  match o with Some v => v | None => old end.

Definition update_space_config (space : Space) (ownership : SpaceOwnership)
    (new_name new_description new_cover_image new_config_quilt
       : option string)
    (new_subscription_price : option u64) (clock : Clock) : tx Space :=
  let sid := uid space in
  assert (space_id ownership =? sid) m_space ENotOwner;;
  let space :=
    mkSpace (uid space)
            (or_keep new_name (name space))
            (or_keep new_description (description space))
            (or_keep new_cover_image (cover_image space))
            (or_keep new_config_quilt (config_quilt space))
            (video_blob_ids space)
            (or_keep new_subscription_price (subscription_price space))
            (creator space) (marketplace_kiosk_id space)
            (created_at space) (timestamp_ms clock) in
  emit (SpaceConfigUpdated sid (creator space) (config_quilt space)
                           (updated_at space));;
  ret space.

Definition add_fan_avatar (fan_registry : FanRegistry) (space : Space)
    (fan_address : address) (avatar_blob_id : string) : tx FanRegistry :=
  let sid := uid space in
  let fan_avatar := mkFanAvatar fan_address avatar_blob_id in
  let* fans :=
    (if negb (table.contains (fans fan_registry) sid)
     then let* t := table.new in table.add (fans fan_registry) sid t
     else ret (fans fan_registry)) in
  let* space_fans := table.borrow fans sid in
  let* space_fans :=
    (if table.contains space_fans fan_address
     then let* r := table.remove space_fans fan_address in ret (snd r)
     else ret space_fans) in
  let* space_fans := table.add space_fans fan_address fan_avatar in
  emit (FanAvatarAdded sid fan_address avatar_blob_id);;
  ret (mkFanRegistry (fan_registry_uid fan_registry)
                     (table.store fans sid space_fans)).

Definition add_video (space : Space) (ownership : SpaceOwnership)
    (video_blob_id : string) (clock : Clock) : tx Space :=
  assert (space_id ownership =? uid space) m_space ENotOwner;;
  ret (mkSpace (uid space) (name space) (description space)
               (cover_image space) (config_quilt space)
               (video_blob_ids space ++ [video_blob_id])
               (subscription_price space) (creator space)
               (marketplace_kiosk_id space) (created_at space)
               (timestamp_ms clock)).

Definition record_content (space : Space) (ownership : SpaceOwnership)
    (blob_object_id : ID) (blob_id : string) (content_type : N)
    (title description : string) (encrypted : bool) (price : u64)
    (tags : list string) (clock : Clock) : tx unit :=
  let sid := uid space in
  assert (space_id ownership =? sid) m_space ENotOwner;;
  let* sender := ctx_sender in
  emit (ContentAdded sid blob_object_id blob_id content_type title
                     description encrypted price tags sender
                     (timestamp_ms clock)).

End space.

(** ** [atrium::subscription] *)

Module subscription.

Definition EInsufficientPayment : u64 := 0.
Definition ENoIdentity : u64 := 1.
Definition ENoAvatar : u64 := 2.
Definition EAlreadySubscribed : u64 := 3.
Definition ENotSubscriber : u64 := 5.
Definition ENotOwner : u64 := 6.

Definition ONE_DAY_MS : u64 := 86400000.

Record Subscription := mkSubscription {
  uid : ID;
  space_id : ID;
  subscriber : address;
  subscribed_at : u64;
  expires_at : u64;
  duration_days : u64;
}.

Record SubscriptionRegistry := mkSubscriptionRegistry {
  registry_uid : ID;
  subscriptions : table.Table (table.Table ID);
  total_subscriptions : u64;
  active_subscriptions : u64;
}.

Definition init : tx SubscriptionRegistry :=
  let* i := object_new in
  let* t := table.new in
  ret (mkSubscriptionRegistry i t 0 0).

Definition is_subscribed_internal (registry : SubscriptionRegistry)
    (subscriber : address) (space_kiosk_id : ID) : bool :=
  if negb (table.contains (subscriptions registry) space_kiosk_id)
  then false
  else
    (* [borrow] of a key that [contains] has just found *)
    match table.lookup space_kiosk_id
                       (table.entries (subscriptions registry)) with
    | Some space_subs => table.contains space_subs subscriber
    | None => false
    end.

Definition is_subscribed (registry : SubscriptionRegistry)
    (subscriber : address) (space_kiosk_id : ID) (_clock : Clock) : bool :=
  is_subscribed_internal registry subscriber space_kiosk_id.

Definition is_expired (subscription : Subscription) (clock : Clock)
    : bool :=
  expires_at subscription <? timestamp_ms clock.

(** The index update shared by the two creating entry points:
    [if (!subscriptions.contains(space_id)) subscriptions.add(space_id, table::new(ctx));]
    [subscriptions.borrow_mut(space_id).add(who, subscription_id)]. *)
Definition register (subs : table.Table (table.Table ID))
    (sid : ID) (who : address) (subscription_id : ID)
    : tx (table.Table (table.Table ID)) :=
  let* subs :=
    (if negb (table.contains subs sid)
     then let* t := table.new in table.add subs sid t
     else ret subs) in
  let* space_subs := table.borrow subs sid in
  let* space_subs := table.add space_subs who subscription_id in
  ret (table.store subs sid space_subs).

Definition create_creator_subscription (registry : SubscriptionRegistry)
    (space : space.Space) (creator : address) (clock : Clock)
    : tx (Subscription * SubscriptionRegistry) :=
  let sid := space.uid space in
  let* i := object_new in
  let subscription :=
    mkSubscription i sid creator (timestamp_ms clock) MAX_U64 0 in
  let subscription_id := uid subscription in
  let* subs := register (subscriptions registry) sid creator
                        subscription_id in
  let* total := add_u64 (total_subscriptions registry) 1 in
  let* active := add_u64 (active_subscriptions registry) 1 in
  emit (SubscriptionCreated subscription_id sid creator MAX_U64 0);;
  ret (subscription,
       mkSubscriptionRegistry (registry_uid registry) subs total active).

(** What [subscribe] hands back: the subscription, the coin split off as
    the price, what is left of the payment, and the two registries. *)
Record Subscribed := mkSubscribed {
  new_subscription : Subscription;
  payment_amount : coin.Coin;
  change : coin.Coin;
  registry_after : SubscriptionRegistry;
  fan_registry_after : space.FanRegistry;
}.

Definition subscribe (registry : SubscriptionRegistry)
    (fan_registry : space.FanRegistry) (space : space.Space)
    (identity : identity.Identity) (payment : coin.Coin)
    (duration_days : u64) (clock : Clock) : tx Subscribed :=
  let* sender := ctx_sender in
  let sid := space.uid space in
  assert (identity.owner identity =? sender) m_subscription ENoIdentity;;
  assert (is_some (identity.avatar_blob_id identity))
         m_subscription ENoAvatar;;
  (if is_subscribed_internal registry sender sid
   then abort m_subscription EAlreadySubscribed
   else ret tt);;
  let subscription_price := space.subscription_price space in
  let* total_price := mul_u64 subscription_price duration_days in
  assert (total_price <=? coin.value payment)
         m_subscription EInsufficientPayment;;
  let* (payment_amount, payment) := coin.split payment total_price in
  let current_time := timestamp_ms clock in
  let* extension := mul_u64 duration_days ONE_DAY_MS in
  let* expires_at := add_u64 current_time extension in
  let* i := object_new in
  let subscription :=
    mkSubscription i sid sender current_time expires_at duration_days in
  let subscription_id := uid subscription in
  let* subs := register (subscriptions registry) sid sender
                        subscription_id in
  let* total := add_u64 (total_subscriptions registry) 1 in
  let* active := add_u64 (active_subscriptions registry) 1 in
  let* avatar_blob_id :=
    destroy_some (identity.avatar_blob_id identity) in
  let* fan_registry :=
    space.add_fan_avatar fan_registry space sender avatar_blob_id in
  emit (SubscriptionCreated subscription_id sid sender expires_at
                            total_price);;
  ret (mkSubscribed subscription payment_amount payment
         (mkSubscriptionRegistry (registry_uid registry) subs total active)
         fan_registry).

(** What [renew_subscription] hands back: the coin split off as the
    price, what is left of the payment, and the subscription behind the
    [&mut] reference. The registry parameter is not touched. *)
Record Renewed := mkRenewed {
  renewal_payment : coin.Coin;
  renewal_change : coin.Coin;
  renewed : Subscription;
}.

Definition renew_subscription (_registry : SubscriptionRegistry)
    (subscription : Subscription) (payment : coin.Coin)
    (space : space.Space) (additional_days : u64) (clock : Clock)
    : tx Renewed :=
  let* sender := ctx_sender in
  assert (subscriber subscription =? sender) m_subscription ENotSubscriber;;
  let subscription_price := space.subscription_price space in
  let* total_price := mul_u64 subscription_price additional_days in
  assert (total_price <=? coin.value payment)
         m_subscription EInsufficientPayment;;
  let* (payment_amount, payment) := coin.split payment total_price in
  let current_time := timestamp_ms clock in
  let* extension := mul_u64 additional_days ONE_DAY_MS in
  let* new_expires_at :=
    (if expires_at subscription <? current_time
     then add_u64 current_time extension
     else add_u64 (expires_at subscription) extension) in
  let* days := add_u64 (duration_days subscription) additional_days in
  let subscription :=
    mkSubscription (uid subscription) (space_id subscription)
                   (subscriber subscription) (subscribed_at subscription)
                   new_expires_at days in
  emit (SubscriptionRenewed (uid subscription) (expires_at subscription)
                            total_price);;
  ret (mkRenewed payment_amount payment subscription).

Definition seal_approve_as_creator (_id : list N) (space : space.Space)
    (ownership : space.SpaceOwnership) : tx unit :=
  assert (space.get_space_ownership_space_id ownership =? space.uid space)
         m_subscription ENotOwner.

Definition seal_approve_as_subscriber (_id : list N) (space : space.Space)
    (subscription : Subscription) (clock : Clock) : tx unit :=
  let sid := space.uid space in
  let* sender := ctx_sender in
  assert (subscriber subscription =? sender) m_subscription ENotSubscriber;;
  assert (space_id subscription =? sid) m_subscription ENotSubscriber;;
  assert (negb (is_expired subscription clock))
         m_subscription ENotSubscriber.

End subscription.

(** ** Transactions and reachable registries *)

(** A transaction commits the state it computed; one that fails leaves the
    state it started from. *)
Definition commit {S A} (before : S) (after : A -> S)
    (o : outcome (A * tx_state)) : S :=
  match o with
  | Ok (a, _) => after a
  | Fail _ => before
  end.

(** The nested index read the way [is_subscribed_internal] reads it. *)
Definition indexed (subs : table.Table (table.Table ID))
    (who : address) (sid : ID) : bool :=
  match table.lookup sid (table.entries subs) with
  | None => false
  | Some space_subs => table.contains space_subs who
  end.

(** What a fan registry holds for a fan of a space. *)
Definition fan_avatar_of (fan_registry : space.FanRegistry) (sid : ID)
    (fan : address) : option space.FanAvatar :=
  match table.lookup sid (table.entries (space.fans fan_registry)) with
  | None => None
  | Some space_fans => table.lookup fan (table.entries space_fans)
  end.

(** The identity registry is created by [init] and changed by the two
    entry points that take it by [&mut]: [mint_identity] and
    [initialize_space]. *)
Inductive identity_reachable : identity.IdentityRegistry -> Prop :=
| reach_identity_init st r st' :
    identity.init st = Ok (r, st') ->
    identity_reachable r
| reach_mint_identity r username bio avatar image clock st idn r' st' :
    identity_reachable r ->
    identity.mint_identity r username bio avatar image clock st
    = Ok ((idn, r'), st') ->
    identity_reachable r'
| reach_initialize_space r sreg name description cover quilt price payment
                         clock st res st' :
    identity_reachable r ->
    space.initialize_space sreg r name description cover quilt price payment
                           clock st = Ok (res, st') ->
    identity_reachable (space.identity_registry_after res).

(** The subscription registry is created by [init] and changed by
    [create_creator_subscription] and [subscribe]; [renew_subscription]
    takes it by [&mut] and leaves it alone. The list records the
    (space, subscriber) pairs of the calls that went through, latest
    first. *)
Inductive subscription_history :
    list (ID * address) -> subscription.SubscriptionRegistry -> Prop :=
| hist_init st r st' :
    subscription.init st = Ok (r, st') ->
    subscription_history [] r
| hist_creator h r sp creator clock st sub r' st' :
    subscription_history h r ->
    subscription.create_creator_subscription r sp creator clock st
    = Ok ((sub, r'), st') ->
    subscription_history ((space.uid sp, creator) :: h) r'
| hist_subscribe h r fans sp idn payment days clock st res st' :
    subscription_history h r ->
    subscription.subscribe r fans sp idn payment days clock st
    = Ok (res, st') ->
    subscription_history ((space.uid sp, tx_sender (ctx st)) :: h)
                         (subscription.registry_after res)
| hist_renew h r sub payment sp days clock st res st' :
    subscription_history h r ->
    subscription.renew_subscription r sub payment sp days clock st
    = Ok (res, st') ->
    subscription_history h r.

(** The conditions under which [subscribe] goes through. *)
Definition subscribe_pre (reg : subscription.SubscriptionRegistry)
    (sp : space.Space) (idn : identity.Identity) (pay : coin.Coin)
    (d : u64) (clk : Clock) (st : tx_state) : Prop :=
  identity.owner idn = tx_sender (ctx st) /\
  is_some (identity.avatar_blob_id idn) = true /\
  subscription.is_subscribed_internal reg (tx_sender (ctx st)) (space.uid sp)
  = false /\
  space.subscription_price sp * d <= MAX_U64 /\
  space.subscription_price sp * d <= coin.value pay /\
  timestamp_ms clk + d * subscription.ONE_DAY_MS <= MAX_U64 /\
  subscription.total_subscriptions reg + 1 <= MAX_U64 /\
  subscription.active_subscriptions reg + 1 <= MAX_U64.

(** Where a renewal counts from: now when the subscription has expired,
    the current expiry otherwise. *)
Definition renewal_base (sub : subscription.Subscription) (clk : Clock)
    : u64 :=
  if subscription.expires_at sub <? timestamp_ms clk
  then timestamp_ms clk
  else subscription.expires_at sub.

(** The conditions under which [renew_subscription] goes through. *)
Definition renew_pre (sub : subscription.Subscription) (pay : coin.Coin)
    (sp : space.Space) (d : u64) (clk : Clock) (st : tx_state) : Prop :=
  subscription.subscriber sub = tx_sender (ctx st) /\
  space.subscription_price sp * d <= MAX_U64 /\
  space.subscription_price sp * d <= coin.value pay /\
  renewal_base sub clk + d * subscription.ONE_DAY_MS <= MAX_U64 /\
  subscription.duration_days sub + d <= MAX_U64.

(** ** Lifecycles *)

(** An identity minted by [minter] and then changed by its mutators. *)
Inductive identity_lifecycle (minter : address)
    : identity.Identity -> Prop :=
| life_minted reg username bio avatar image clock st idn reg' st' :
    tx_sender (ctx st) = minter ->
    identity.mint_identity reg username bio avatar image clock st
    = Ok ((idn, reg'), st') ->
    identity_lifecycle minter idn
| life_bind_avatar idn avatar st idn' st' :
    identity_lifecycle minter idn ->
    identity.bind_avatar idn avatar st = Ok (idn', st') ->
    identity_lifecycle minter idn'
| life_update_image idn image st idn' st' :
    identity_lifecycle minter idn ->
    identity.update_image idn image st = Ok (idn', st') ->
    identity_lifecycle minter idn'
| life_update_bio idn bio st idn' st' :
    identity_lifecycle minter idn ->
    identity.update_bio idn bio st = Ok (idn', st') ->
    identity_lifecycle minter idn'.

(** The space registry and the identity registry, created by the two
    [init]s and changed together by [initialize_space]; [mint_identity]
    changes the identity registry alone. *)
Inductive platform_reachable
    : space.SpaceRegistry -> identity.IdentityRegistry -> Prop :=
| platform_init st1 sreg fans st1' st2 ireg st2' :
    space.init st1 = Ok ((sreg, fans), st1') ->
    identity.init st2 = Ok (ireg, st2') ->
    platform_reachable sreg ireg
| platform_mint sreg ireg username bio avatar image clock st idn ireg' st' :
    platform_reachable sreg ireg ->
    identity.mint_identity ireg username bio avatar image clock st
    = Ok ((idn, ireg'), st') ->
    platform_reachable sreg ireg'
| platform_initialize_space sreg ireg name description cover quilt price
                            payment clock st res st' :
    platform_reachable sreg ireg ->
    space.initialize_space sreg ireg name description cover quilt price
                           payment clock st = Ok (res, st') ->
    platform_reachable (space.registry_after res)
                       (space.identity_registry_after res).

(** A space as [initialize_space] shares it, then changed by the two
    owner-gated mutators. *)
Inductive space_evolves (sp0 : space.Space) : space.Space -> Prop :=
| evolves_start : space_evolves sp0 sp0
| evolves_update sp own new_name new_description new_cover new_quilt
                 new_price clock st sp' st' :
    space_evolves sp0 sp ->
    space.update_space_config sp own new_name new_description new_cover
                              new_quilt new_price clock st = Ok (sp', st') ->
    space_evolves sp0 sp'
| evolves_add_video sp own video clock st sp' st' :
    space_evolves sp0 sp ->
    space.add_video sp own video clock st = Ok (sp', st') ->
    space_evolves sp0 sp'.

(** The subscription id the nested index holds for a subscriber of a
    space. *)
Definition indexed_id (subs : table.Table (table.Table ID))
    (who : address) (sid : ID) : option ID :=
  match table.lookup sid (table.entries subs) with
  | None => None
  | Some space_subs => table.lookup who (table.entries space_subs)
  end.

(** ** Sample data *)

Definition sample_space : space.Space :=
  space.mkSpace 10 "gallery" "a space" "cover" "quilt" [] 100 7 11 0 0.

Definition cheap_space : space.Space :=
  space.mkSpace 20 "other" "another space" "cover" "quilt" [] 1 8 12 0 0.

Definition empty_registry : subscription.SubscriptionRegistry :=
  subscription.mkSubscriptionRegistry 1 (table.mkTable 2 []) 0 0.

Definition empty_fans : space.FanRegistry :=
  space.mkFanRegistry 3 (table.mkTable 4 []).

Definition tx_of (who : address) (hash : N) : tx_state :=
  mkTxState (mkTxContext who hash 0) [].

(** The lifetime subscription of the creator (address 7) of
    [sample_space], as [create_creator_subscription] makes it. *)
Definition creator_subscription : subscription.Subscription :=
  subscription.mkSubscription (derive_id 50 0) 10 7 1000 MAX_U64 0.

Definition creator_registry : subscription.SubscriptionRegistry :=
  subscription.mkSubscriptionRegistry 1
    (table.mkTable 2
       [(10, table.mkTable (derive_id 50 1) [(7, derive_id 50 0)])])
    1 1.

(** A paid subscription of address 5 to [sample_space] that runs until
    time 2000. *)
Definition fan_subscription : subscription.Subscription :=
  subscription.mkSubscription 30 10 5 1000 2000 1.

(** The identity of address 5, with an avatar bound. *)
Definition fan_identity : identity.Identity :=
  identity.mkIdentity 31 5 "fan" "bio" (Some "avatar-blob"%string) "image-blob"
                      900 false.

(** The identity of address 7, the creator of [sample_space], minted with
    an empty avatar string and so without an avatar. *)
Definition creator_identity : identity.Identity :=
  identity.mkIdentity 32 7 "creator" "bio" None "image-blob" 900 false.

(** * Properties *)

(** ** Reasoning about transactions *)

Ltac tx_unfold :=
  unfold bind, ret, assert, abort, add_u64, mul_u64, ctx_sender, emit,
    object_new, destroy_some in *.

(** ** Tables *)

Section TableFacts.

Context {V : Type}.
Implicit Types (l : list (N * V)) (t : table.Table V) (k : N) (v : V).

Lemma lookup_app_last l k k' v :
  table.lookup k (l ++ [(k', v)])
  = match table.lookup k l with
    | Some x => Some x
    | None => if k =? k' then Some v else None
    end.
Proof.
  induction l as [|[k0 v0] l IH]; cbn.
  - reflexivity.
  - destruct (k =? k0); [reflexivity | exact IH].
Qed.

Lemma lookup_replace l k k' v :
  table.lookup k (table.replace k' v l)
  = if k =? k'
    then match table.lookup k l with Some _ => Some v | None => None end
    else table.lookup k l.
Proof.
  induction l as [|[k0 v0] l IH]; cbn.
  - now destruct (k =? k').
  - destruct (N.eqb_spec k' k0) as [->|Hk0]; cbn;
      destruct (N.eqb_spec k k0) as [->|Hk]; cbn;
      rewrite ?N.eqb_refl; auto.
    destruct (N.eqb_spec k0 k'); [congruence | reflexivity].
Qed.

Lemma lookup_erase l k : table.lookup k (table.erase k l) = None.
Proof.
  induction l as [|[k0 v0] l IH]; cbn; [reflexivity|].
  destruct (k =? k0) eqn:E; cbn; [exact IH | now rewrite E].
Qed.

Lemma lookup_None_keys l k :
  table.lookup k l = None <-> ~ In k (map fst l).
Proof.
  induction l as [|[k0 v0] l IH]; cbn.
  - tauto.
  - destruct (N.eqb_spec k k0) as [->|Hk].
    + split; [discriminate | intros H; exfalso; apply H; now left].
    + rewrite IH. split; [intros H [E|E]; [congruence | auto] | tauto].
Qed.

Lemma contains_false t k :
  table.contains t k = false <-> table.lookup k (table.entries t) = None.
Proof.
  unfold table.contains.
  destruct (table.lookup k (table.entries t)); split; congruence.
Qed.

Lemma contains_true t k :
  table.contains t k = true
  <-> exists v, table.lookup k (table.entries t) = Some v.
Proof.
  unfold table.contains.
  destruct (table.lookup k (table.entries t)) as [v|]; split;
    try congruence; eauto.
  intros [v H]; discriminate.
Qed.

(** [add] goes through exactly on a key that is not there, and appends. *)
Lemma add_ok t k v s :
  table.contains t k = false ->
  table.add t k v s
  = Ok (table.mkTable (table.uid t) (table.entries t ++ [(k, v)]), s).
Proof. intros H. unfold table.add. now rewrite H. Qed.

Lemma add_inv t k v s t' s' :
  table.add t k v s = Ok (t', s') ->
  table.contains t k = false /\ s' = s /\
  t' = table.mkTable (table.uid t) (table.entries t ++ [(k, v)]).
Proof.
  unfold table.add. destruct (table.contains t k); [discriminate|].
  cbn. now intros [= <- <-].
Qed.

(** Keys stay pairwise distinct under [add]. *)
Lemma add_keys_NoDup t k v s t' s' :
  NoDup (table.keys t) ->
  table.add t k v s = Ok (t', s') ->
  NoDup (table.keys t').
Proof.
  intros Hnd H. apply add_inv in H as (Hc & _ & ->).
  unfold table.keys in *. cbn. rewrite map_app. cbn.
  apply contains_false, lookup_None_keys in Hc.
  pose proof (Add_app k (map fst (table.entries t)) []) as HA.
  rewrite app_nil_r in HA.
  apply (NoDup_Add HA). split; assumption.
Qed.

End TableFacts.

(** ** The nested index *)

Lemma is_subscribed_internal_indexed reg who sid :
  subscription.is_subscribed_internal reg who sid
  = indexed (subscription.subscriptions reg) who sid.
Proof.
  unfold subscription.is_subscribed_internal, indexed, table.contains.
  now destruct (table.lookup sid _).
Qed.

Lemma register_inv subs sid who x st subs' st' :
  subscription.register subs sid who x st = Ok (subs', st') ->
  indexed subs who sid = false.
Proof.
  unfold subscription.register, indexed, table.borrow, table.new.
  tx_unfold.
  destruct (table.contains subs sid) eqn:C; cbn.
  - apply contains_true in C as [inner L]. rewrite L. cbn.
    unfold table.add.
    destruct (table.contains inner who); [discriminate | reflexivity].
  - apply contains_false in C as L. now rewrite L.
Qed.

Lemma register_ok subs sid who x st :
  indexed subs who sid = false ->
  exists subs' st',
    subscription.register subs sid who x st = Ok (subs', st') /\
    tx_sender (ctx st') = tx_sender (ctx st) /\
    forall a s,
      indexed subs' a s = indexed subs a s || ((s =? sid) && (a =? who)).
Proof.
  intros Hc. unfold subscription.register, table.borrow, table.new.
  unfold indexed in *. tx_unfold.
  destruct (table.contains subs sid) eqn:C; cbn.
  - apply contains_true in C as [inner L]. rewrite L in *. cbn.
    rewrite (add_ok _ _ _ _ Hc).
    eexists _, _. split; [reflexivity|]. split; [reflexivity|].
    intros a s. cbn. rewrite lookup_replace.
    destruct (N.eqb_spec s sid) as [->|Hs]; cbn.
    + rewrite L. unfold table.contains. cbn. rewrite lookup_app_last.
      destruct (table.lookup a (table.entries inner)); cbn; [reflexivity|].
      now destruct (a =? who).
    + now rewrite orb_false_r.
  - rewrite (add_ok _ _ _ _ C). apply contains_false in C as L. cbn.
    rewrite lookup_app_last, L, N.eqb_refl. cbn.
    eexists _, _. split; [reflexivity|]. split; [reflexivity|].
    intros a s. cbn. rewrite lookup_replace, lookup_app_last.
    destruct (N.eqb_spec s sid) as [->|Hs]; cbn.
    + rewrite L. unfold table.contains. cbn. now destruct (a =? who).
    + destruct (table.lookup s (table.entries subs)); cbn.
      * now rewrite orb_false_r.
      * reflexivity.
Qed.

Lemma add_fan_avatar_ok fans sp fan avatar st :
  exists fans' st',
    space.add_fan_avatar fans sp fan avatar st = Ok (fans', st') /\
    fan_avatar_of fans' (space.uid sp) fan
    = Some (space.mkFanAvatar fan avatar).
Proof.
  unfold space.add_fan_avatar, fan_avatar_of, table.borrow, table.new,
    table.remove.
  tx_unfold.
  destruct (table.contains (space.fans fans) (space.uid sp)) eqn:C; cbn.
  - apply contains_true in C as [inner L]. rewrite L. cbn.
    destruct (table.contains inner fan) eqn:Cf; cbn.
    + apply contains_true in Cf as [old Lf]. rewrite Lf. cbn.
      unfold table.add, table.contains. cbn. rewrite lookup_erase. cbn.
      eexists _, _. split; [reflexivity|]. cbn.
      rewrite lookup_replace, N.eqb_refl, L. cbn.
      now rewrite lookup_app_last, lookup_erase, N.eqb_refl.
    + rewrite (add_ok _ _ _ _ Cf). apply contains_false in Cf as Lf.
      eexists _, _. split; [reflexivity|]. cbn.
      rewrite lookup_replace, N.eqb_refl, L. cbn.
      now rewrite lookup_app_last, Lf, N.eqb_refl.
  - rewrite (add_ok _ _ _ _ C). apply contains_false in C as L. cbn.
    rewrite lookup_app_last, L, N.eqb_refl. cbn.
    eexists _, _. split; [reflexivity|]. cbn.
    rewrite lookup_replace, N.eqb_refl, lookup_app_last, L, N.eqb_refl.
    cbn. now rewrite N.eqb_refl.
Qed.

(** ** [subscribe] *)

Lemma subscribe_inv reg fans sp idn pay d clk st res st' :
  subscription.subscribe reg fans sp idn pay d clk st = Ok (res, st') ->
  subscribe_pre reg sp idn pay d clk st.
Proof.
  unfold subscription.subscribe, subscribe_pre, coin.split. tx_unfold. cbn.
  destruct (N.eqb_spec (identity.owner idn) (tx_sender (ctx st)));
    cbn; [|discriminate].
  destruct (is_some (identity.avatar_blob_id idn)); cbn; [|discriminate].
  destruct (subscription.is_subscribed_internal _ _ _); cbn; [discriminate|].
  destruct (N.leb_spec (space.subscription_price sp * d) MAX_U64);
    cbn; [|discriminate].
  destruct (N.leb_spec (space.subscription_price sp * d) (coin.value pay))
    as [Hp|Hp]; cbn; [|discriminate].
  destruct (N.leb_spec (d * subscription.ONE_DAY_MS) MAX_U64);
    cbn; [|discriminate].
  destruct (N.leb_spec (timestamp_ms clk + d * subscription.ONE_DAY_MS)
                       MAX_U64); cbn; [|discriminate].
  destruct (subscription.register _ _ _ _ _) as [[subs' s1]|];
    [|discriminate].
  destruct (N.leb_spec (subscription.total_subscriptions reg + 1) MAX_U64);
    cbn; [|discriminate].
  destruct (N.leb_spec (subscription.active_subscriptions reg + 1) MAX_U64);
    cbn; [|discriminate].
  intros _. repeat split; assumption.
Qed.

Lemma subscribe_ok reg fans sp idn pay d clk st :
  subscribe_pre reg sp idn pay d clk st ->
  exists res st',
    subscription.subscribe reg fans sp idn pay d clk st = Ok (res, st') /\
    subscription.new_subscription res
    = subscription.mkSubscription
        (derive_id (tx_hash (ctx st)) (ids_created (ctx st) + 1))
        (space.uid sp) (tx_sender (ctx st)) (timestamp_ms clk)
        (timestamp_ms clk + d * subscription.ONE_DAY_MS) d /\
    coin.value (subscription.payment_amount res)
    = space.subscription_price sp * d /\
    subscription.change res
    = coin.mkCoin (coin.uid pay)
                  (coin.value pay - space.subscription_price sp * d) /\
    subscription.total_subscriptions (subscription.registry_after res)
    = subscription.total_subscriptions reg + 1 /\
    subscription.active_subscriptions (subscription.registry_after res)
    = subscription.active_subscriptions reg + 1 /\
    (forall a s,
       subscription.is_subscribed_internal (subscription.registry_after res)
                                           a s
       = subscription.is_subscribed_internal reg a s
         || ((s =? space.uid sp) && (a =? tx_sender (ctx st)))) /\
    (forall avatar,
       identity.avatar_blob_id idn = Some avatar ->
       fan_avatar_of (subscription.fan_registry_after res) (space.uid sp)
                     (tx_sender (ctx st))
       = Some (space.mkFanAvatar (tx_sender (ctx st)) avatar)).
Proof.
  intros (Ho & Ha & Hn & Hm & Hp & He & Ht & Hact).
  assert (Hd : d * subscription.ONE_DAY_MS <= MAX_U64) by lia.
  unfold subscription.subscribe, coin.split. tx_unfold. cbn.
  apply N.eqb_eq in Ho as Ho'. rewrite Ho', Ha, Hn. cbn.
  apply N.leb_le in Hm as Hm'. rewrite Hm'. cbn.
  apply N.leb_le in Hp as Hp'. rewrite Hp'. cbn.
  apply N.leb_le in Hd as Hd'. rewrite Hd'. cbn.
  apply N.leb_le in He as He'. rewrite He'. cbn.
  rewrite is_subscribed_internal_indexed in Hn.
  match goal with
  | |- context [subscription.register ?a ?b ?c ?x ?s] =>
      destruct (register_ok a b c x s Hn) as (subs' & s1 & Hr & Hs & Hidx);
      rewrite Hr
  end.
  apply N.leb_le in Ht as Ht'. rewrite Ht'. cbn.
  apply N.leb_le in Hact as Hact'. rewrite Hact'. cbn.
  destruct (identity.avatar_blob_id idn) as [avatar|]; [|discriminate].
  cbn.
  match goal with
  | |- context [space.add_fan_avatar ?f ?p ?a ?v ?s] =>
      destruct (add_fan_avatar_ok f p a v s) as (fans' & s2 & Hf & Hfan);
      rewrite Hf
  end.
  eexists _, _. split; [reflexivity|]. cbn.
  repeat split; try reflexivity.
  - intros a s. rewrite !is_subscribed_internal_indexed. apply Hidx.
  - intros av [= <-]. exact Hfan.
Qed.

(** ** [renew_subscription] *)

Lemma renew_subscription_inv reg sub pay sp d clk st res st' :
  subscription.renew_subscription reg sub pay sp d clk st = Ok (res, st') ->
  renew_pre sub pay sp d clk st.
Proof.
  unfold subscription.renew_subscription, renew_pre, renewal_base,
    coin.split.
  tx_unfold. cbn.
  destruct (N.eqb_spec (subscription.subscriber sub) (tx_sender (ctx st)));
    cbn; [|discriminate].
  destruct (N.leb_spec (space.subscription_price sp * d) MAX_U64);
    cbn; [|discriminate].
  destruct (N.leb_spec (space.subscription_price sp * d) (coin.value pay));
    cbn; [|discriminate].
  destruct (N.leb_spec (d * subscription.ONE_DAY_MS) MAX_U64);
    cbn; [|discriminate].
  destruct (subscription.expires_at sub <? timestamp_ms clk); cbn.
  - destruct (N.leb_spec (timestamp_ms clk + d * subscription.ONE_DAY_MS)
                         MAX_U64); cbn; [|discriminate].
    destruct (N.leb_spec (subscription.duration_days sub + d) MAX_U64);
      cbn; [|discriminate].
    intros _. repeat split; assumption.
  - destruct (N.leb_spec (subscription.expires_at sub
                          + d * subscription.ONE_DAY_MS) MAX_U64);
      cbn; [|discriminate].
    destruct (N.leb_spec (subscription.duration_days sub + d) MAX_U64);
      cbn; [|discriminate].
    intros _. repeat split; assumption.
Qed.

Lemma renew_subscription_ok reg sub pay sp d clk st :
  renew_pre sub pay sp d clk st ->
  exists st',
    subscription.renew_subscription reg sub pay sp d clk st
    = Ok (subscription.mkRenewed
            (coin.mkCoin (derive_id (tx_hash (ctx st)) (ids_created (ctx st)))
                         (space.subscription_price sp * d))
            (coin.mkCoin (coin.uid pay)
                         (coin.value pay - space.subscription_price sp * d))
            (subscription.mkSubscription
               (subscription.uid sub) (subscription.space_id sub)
               (subscription.subscriber sub) (subscription.subscribed_at sub)
               (renewal_base sub clk + d * subscription.ONE_DAY_MS)
               (subscription.duration_days sub + d)),
          st') /\
    tx_sender (ctx st') = tx_sender (ctx st).
Proof.
  intros (Ho & Hm & Hp & He & Hdays).
  assert (Hd : d * subscription.ONE_DAY_MS <= MAX_U64) by lia.
  unfold subscription.renew_subscription, coin.split, renewal_base in *.
  tx_unfold. cbn.
  apply N.eqb_eq in Ho as Ho'. rewrite Ho'. cbn.
  apply N.leb_le in Hm as Hm'. rewrite Hm'. cbn.
  apply N.leb_le in Hp as Hp'. rewrite Hp'. cbn.
  apply N.leb_le in Hd as Hd'. rewrite Hd'. cbn.
  apply N.leb_le in Hdays as Hdays'.
  destruct (subscription.expires_at sub <? timestamp_ms clk); cbn;
    apply N.leb_le in He as He'; rewrite He'; cbn; rewrite Hdays'; cbn;
    eexists; split; reflexivity.
Qed.

(** ** The gate checks *)

Import subscription.

(** C2. The subscriber-path gate check returns, leaving the transaction
    state as it was, exactly when the subscription's subscriber is the
    sender, its space id is the id of the space presented, and it is not
    expired ([expires_at < now] is false); whenever one of the three fails
    it aborts with [ENotSubscriber]. In particular a subscription of the
    sender that has not expired is refused against a space with another
    id. *)
Theorem seal_approve_as_subscriber_spec :
  forall (id : list N) (sp : space.Space) (sub : Subscription)
         (clock : Clock) (st : tx_state),
    let granted :=
      subscriber sub = tx_sender (ctx st) /\
      space_id sub = space.uid sp /\
      ~ expires_at sub < timestamp_ms clock in
    (seal_approve_as_subscriber id sp sub clock st = Ok (tt, st) <-> granted)
    /\ (~ granted ->
        seal_approve_as_subscriber id sp sub clock st
        = Fail (Abort m_subscription ENotSubscriber))
    /\ (subscriber sub = tx_sender (ctx st) ->
        is_expired sub clock = false ->
        space_id sub <> space.uid sp ->
        seal_approve_as_subscriber id sp sub clock st
        = Fail (Abort m_subscription ENotSubscriber)).
Proof.
  intros id sp sub clock st granted. subst granted.
  unfold seal_approve_as_subscriber, is_expired.
  destruct st as [c ev]. tx_unfold. cbn.
  destruct (N.eqb_spec (subscriber sub) (tx_sender c)) as [Hs|Hs]; cbn;
    [destruct (N.eqb_spec (space_id sub) (space.uid sp)) as [Hi|Hi]; cbn;
     [destruct (N.ltb_spec (expires_at sub) (timestamp_ms clock)) as [He|He];
      cbn|]|];
    intuition (discriminate || lia || auto).
Qed.

Lemma seal_approve_as_subscriber_spec_witness :
  let sp := space.mkSpace 10 "a" "b" "c" "d" [] 100 7 11 0 0 in
  let other := space.mkSpace 20 "a" "b" "c" "d" [] 100 7 11 0 0 in
  let sub := mkSubscription 30 10 5 1000 2000 1 in
  let st := mkTxState (mkTxContext 5 99 0) [] in
  seal_approve_as_subscriber [] sp sub (mkClock 2000) st = Ok (tt, st)
  /\ seal_approve_as_subscriber [] sp sub (mkClock 2001) st
     = Fail (Abort m_subscription ENotSubscriber)
  /\ seal_approve_as_subscriber [] other sub (mkClock 1500) st
     = Fail (Abort m_subscription ENotSubscriber).
Proof.
  cbv zeta. split; [|split].
  - destruct (seal_approve_as_subscriber_spec []
                (space.mkSpace 10 "a" "b" "c" "d" [] 100 7 11 0 0)
                (mkSubscription 30 10 5 1000 2000 1) (mkClock 2000)
                (mkTxState (mkTxContext 5 99 0) [])) as ([_ H] & _ & _).
    apply H. cbn. repeat split; lia.
  - destruct (seal_approve_as_subscriber_spec []
                (space.mkSpace 10 "a" "b" "c" "d" [] 100 7 11 0 0)
                (mkSubscription 30 10 5 1000 2000 1) (mkClock 2001)
                (mkTxState (mkTxContext 5 99 0) [])) as (_ & H & _).
    apply H. cbn. intros (_ & _ & H'). apply H'. lia.
  - destruct (seal_approve_as_subscriber_spec []
                (space.mkSpace 20 "a" "b" "c" "d" [] 100 7 11 0 0)
                (mkSubscription 30 10 5 1000 2000 1) (mkClock 1500)
                (mkTxState (mkTxContext 5 99 0) [])) as (_ & _ & H).
    apply H; [reflexivity | reflexivity | cbn; lia].
Defined.


(** C5. Each operation guarded by the [SpaceOwnership] capability
    ([update_space_config], [add_video], [record_content] and the owner-path
    gate check [seal_approve_as_creator]) aborts with its module's
    [ENotOwner] when [ownership.space_id] differs from the id of the space,
    whoever the sender is, and goes through when the two are equal. *)
Theorem ownership_capability_gate :
  forall (sp : space.Space) (own : space.SpaceOwnership)
         (new_name new_description new_cover_image new_config_quilt
            : option string)
         (new_subscription_price : option u64)
         (video_blob_id : string)
         (blob_object_id : ID) (blob_id : string) (content_type : N)
         (title description : string) (encrypted : bool) (price : u64)
         (tags : list string) (id : list N)
         (clock : Clock) (st : tx_state),
    let update :=
      space.update_space_config sp own new_name new_description
        new_cover_image new_config_quilt new_subscription_price clock st in
    let video := space.add_video sp own video_blob_id clock st in
    let record :=
      space.record_content sp own blob_object_id blob_id content_type title
        description encrypted price tags clock st in
    let approve := seal_approve_as_creator id sp own st in
    (space.space_id own <> space.uid sp ->
       update = Fail (Abort m_space space.ENotOwner) /\
       video = Fail (Abort m_space space.ENotOwner) /\
       record = Fail (Abort m_space space.ENotOwner) /\
       approve = Fail (Abort m_subscription ENotOwner))
    /\ (space.space_id own = space.uid sp ->
       (exists sp' st', update = Ok (sp', st')) /\
       (exists sp' st', video = Ok (sp', st')) /\
       (exists st', record = Ok (tt, st')) /\
       approve = Ok (tt, st)).
Proof.
  intros. subst update video record approve.
  unfold space.update_space_config, space.add_video, space.record_content,
    seal_approve_as_creator, space.get_space_ownership_space_id.
  tx_unfold.
  destruct (N.eqb_spec (space.space_id own) (space.uid sp)) as [E|E]; cbn.
  - split; [intros H; contradiction|]. intros _.
    repeat split; eauto.
  - split; [auto|]. intros H; contradiction.
Qed.

Lemma ownership_capability_gate_witness :
  let sp := space.mkSpace 10 "n" "d" "c" "q" [] 100 7 11 0 0 in
  let st := mkTxState (mkTxContext 8 99 0) [] in
  space.add_video sp (space.mkSpaceOwnership 40 20) "v" (mkClock 5) st
  = Fail (Abort m_space space.ENotOwner)
  /\ seal_approve_as_creator [] sp (space.mkSpaceOwnership 41 10) st
     = Ok (tt, st).
Proof.
  cbv zeta. split.
  - destruct (ownership_capability_gate
                (space.mkSpace 10 "n" "d" "c" "q" [] 100 7 11 0 0)
                (space.mkSpaceOwnership 40 20) None None None None None
                "v" 0 "b" 1 "t" "d" false 0 [] [] (mkClock 5)
                (mkTxState (mkTxContext 8 99 0) [])) as [H _].
    apply H. cbn. lia.
  - destruct (ownership_capability_gate
                (space.mkSpace 10 "n" "d" "c" "q" [] 100 7 11 0 0)
                (space.mkSpaceOwnership 41 10) None None None None None
                "v" 0 "b" 1 "t" "d" false 0 [] [] (mkClock 5)
                (mkTxState (mkTxContext 8 99 0) [])) as [_ H].
    apply H. reflexivity.
Defined.


(** ** Renewal *)

Lemma creator_subscription_created :
  create_creator_subscription empty_registry sample_space 7 (mkClock 1000)
                              (tx_of 7 50)
  = Ok ((creator_subscription, creator_registry),
        mkTxState (mkTxContext 7 50 2)
          [SubscriptionCreated (derive_id 50 0) 10 7 MAX_U64 0]).
Proof. reflexivity. Qed.

(** C1, as stated, fails: the creator of a space renews the lifetime
    subscription that [create_creator_subscription] gave them (expiry
    [MAX_U64], so not expired) by one day and pays the price in full; the
    sum [expires_at + extension] overflows, the call aborts, and the
    expiry is not advanced by a day. *)
Lemma renew_creator_subscription_overflows :
  let sub := creator_subscription in
  let pay := coin.mkCoin 60 100 in
  let clock := mkClock 2000 in
  let st := tx_of 7 51 in
  let result :=
    renew_subscription creator_registry sub pay sample_space 1 clock st in
  subscriber sub = tx_sender (ctx st)
  /\ space.subscription_price sample_space * 1 <= coin.value pay
  /\ is_expired sub clock = false
  /\ result = Fail ArithmeticError
  /\ expires_at (commit sub renewed result)
     <> expires_at sub + 1 * ONE_DAY_MS.
Proof.
  cbv zeta. split; [reflexivity|]. split; [vm_compute; discriminate|].
  split; [reflexivity|]. split; [reflexivity|]. vm_compute. discriminate.
Qed.

(** C1. When the sender is the subscriber, the payment (a [u64]) covers
    [subscription_price * additional_days], and the new expiry and the new
    day count fit in a [u64], [renew_subscription] goes through and the new
    [expires_at] is [now + additional_days * ONE_DAY_MS] if the
    subscription had expired ([expires_at < now]) and
    [expires_at + additional_days * ONE_DAY_MS] otherwise. Hence two
    renewals by [d] days of a subscription that has not expired at either
    call move [expires_at] by exactly [2 * d * ONE_DAY_MS]. When the new
    expiry or the new day count does not fit in a [u64], the call from the
    subscriber with the price covered aborts on the arithmetic overflow
    and [expires_at] stays what it was. *)
Theorem renew_subscription_extension :
  (forall reg sub pay sp d clock st,
     subscriber sub = tx_sender (ctx st) ->
     space.subscription_price sp * d <= coin.value pay ->
     coin.value pay <= MAX_U64 ->
     renewal_base sub clock + d * ONE_DAY_MS <= MAX_U64 ->
     duration_days sub + d <= MAX_U64 ->
     exists res st',
       renew_subscription reg sub pay sp d clock st = Ok (res, st') /\
       (expires_at sub < timestamp_ms clock ->
        expires_at (renewed res) = timestamp_ms clock + d * ONE_DAY_MS) /\
       (~ expires_at sub < timestamp_ms clock ->
        expires_at (renewed res) = expires_at sub + d * ONE_DAY_MS))
  /\
  (forall reg sub pay1 pay2 sp d clock1 clock2 st1 st2,
     subscriber sub = tx_sender (ctx st1) ->
     subscriber sub = tx_sender (ctx st2) ->
     space.subscription_price sp * d <= coin.value pay1 ->
     coin.value pay1 <= MAX_U64 ->
     space.subscription_price sp * d <= coin.value pay2 ->
     coin.value pay2 <= MAX_U64 ->
     ~ expires_at sub < timestamp_ms clock1 ->
     ~ expires_at sub + d * ONE_DAY_MS < timestamp_ms clock2 ->
     expires_at sub + 2 * d * ONE_DAY_MS <= MAX_U64 ->
     duration_days sub + 2 * d <= MAX_U64 ->
     exists res1 st1' res2 st2',
       renew_subscription reg sub pay1 sp d clock1 st1 = Ok (res1, st1') /\
       renew_subscription reg (renewed res1) pay2 sp d clock2 st2
       = Ok (res2, st2') /\
       expires_at (renewed res2) = expires_at sub + 2 * d * ONE_DAY_MS)
  /\
  (forall reg sub pay sp d clock st,
     subscriber sub = tx_sender (ctx st) ->
     space.subscription_price sp * d <= coin.value pay ->
     coin.value pay <= MAX_U64 ->
     MAX_U64 < renewal_base sub clock + d * ONE_DAY_MS \/
     MAX_U64 < duration_days sub + d ->
     renew_subscription reg sub pay sp d clock st = Fail ArithmeticError /\
     expires_at (commit sub renewed
                   (renew_subscription reg sub pay sp d clock st))
     = expires_at sub).
Proof.
  split; [|split].
  - intros reg sub pay sp d clock st Hs Hp Hv Hb Hd.
    destruct (renew_subscription_ok reg sub pay sp d clock st)
      as (st' & Hr & _).
    { unfold renew_pre. repeat split; try assumption; lia. }
    eexists _, st'. split; [exact Hr|]. cbn. unfold renewal_base.
    split; intros H.
    + apply N.ltb_lt in H. now rewrite H.
    + apply N.ltb_nlt in H. now rewrite H.
  - intros reg sub pay1 pay2 sp d clock1 clock2 st1 st2
           Hs1 Hs2 Hp1 Hv1 Hp2 Hv2 Ha1 Ha2 Hb Hd.
    apply N.ltb_nlt in Ha1 as Ha1'.
    destruct (renew_subscription_ok reg sub pay1 sp d clock1 st1)
      as (st1' & Hr1 & _).
    { unfold renew_pre, renewal_base. rewrite Ha1'.
      repeat split; try assumption; lia. }
    set (sub1 := mkSubscription _ _ _ _ _ _) in Hr1.
    assert (E1 : expires_at sub1 = expires_at sub + d * ONE_DAY_MS).
    { subst sub1. cbn. unfold renewal_base. now rewrite Ha1'. }
    assert (Ha2' : (expires_at sub1 <? timestamp_ms clock2) = false).
    { apply N.ltb_nlt. rewrite E1. exact Ha2. }
    destruct (renew_subscription_ok reg sub1 pay2 sp d clock2 st2)
      as (st2' & Hr2 & _).
    { unfold renew_pre, renewal_base. rewrite Ha2', E1. subst sub1. cbn.
      repeat split; try assumption; lia. }
    eexists _, st1', _, st2'. split; [exact Hr1|].
    split; [exact Hr2|]. cbn [renewed expires_at]. unfold renewal_base.
    rewrite Ha2', E1. lia.
  - intros reg sub pay sp d clock st Hs Hp Hv Hover.
    assert (E : renew_subscription reg sub pay sp d clock st
                = Fail ArithmeticError).
    { unfold renew_subscription, coin.split, renewal_base in *.
      tx_unfold. cbn.
      apply N.eqb_eq in Hs. rewrite Hs. cbn.
      assert (Hm : (space.subscription_price sp * d <=? MAX_U64) = true)
        by (apply N.leb_le; lia).
      rewrite Hm. cbn.
      apply N.leb_le in Hp. rewrite Hp. cbn.
      destruct (N.leb_spec (d * ONE_DAY_MS) MAX_U64) as [Hd|Hd]; cbn;
        [|reflexivity].
      destruct (expires_at sub <? timestamp_ms clock); cbn.
      - destruct (N.leb_spec (timestamp_ms clock + d * ONE_DAY_MS) MAX_U64)
          as [He|He]; cbn; [|reflexivity].
        destruct (N.leb_spec (duration_days sub + d) MAX_U64) as [Hn|Hn];
          cbn; [|reflexivity].
        destruct Hover; lia.
      - destruct (N.leb_spec (expires_at sub + d * ONE_DAY_MS) MAX_U64)
          as [He|He]; cbn; [|reflexivity].
        destruct (N.leb_spec (duration_days sub + d) MAX_U64) as [Hn|Hn];
          cbn; [|reflexivity].
        destruct Hover; lia. }
    split; [exact E|]. now rewrite E.
Qed.

Lemma renew_subscription_extension_witness :
  (exists res st',
     renew_subscription empty_registry fan_subscription (coin.mkCoin 60 500)
                        sample_space 2 (mkClock 3000) (tx_of 5 70)
     = Ok (res, st') /\
     expires_at (renewed res) = 3000 + 2 * ONE_DAY_MS)
  /\
  (exists res1 st1' res2 st2',
     renew_subscription empty_registry fan_subscription (coin.mkCoin 60 500)
                        sample_space 2 (mkClock 1500) (tx_of 5 70)
     = Ok (res1, st1') /\
     renew_subscription empty_registry (renewed res1) (coin.mkCoin 61 200)
                        sample_space 2 (mkClock 1800) (tx_of 5 71)
     = Ok (res2, st2') /\
     expires_at (renewed res2) = 2000 + 2 * 2 * ONE_DAY_MS)
  /\
  renew_subscription creator_registry creator_subscription
                     (coin.mkCoin 60 300) sample_space 3 (mkClock 2000)
                     (tx_of 7 51)
  = Fail ArithmeticError.
Proof.
  destruct renew_subscription_extension as (Hone & Htwo & Hover).
  split; [|split].
  - destruct (Hone empty_registry fan_subscription (coin.mkCoin 60 500)
                sample_space 2 (mkClock 3000) (tx_of 5 70))
      as (res & st' & Hr & He & _);
      try (vm_compute; discriminate); try reflexivity.
    exists res, st'. split; [exact Hr|]. apply He. reflexivity.
  - apply (Htwo empty_registry fan_subscription (coin.mkCoin 60 500)
             (coin.mkCoin 61 200) sample_space 2 (mkClock 1500)
             (mkClock 1800) (tx_of 5 70) (tx_of 5 71));
      try (vm_compute; discriminate); try reflexivity.
  - refine (proj1 (Hover creator_registry creator_subscription
                     (coin.mkCoin 60 300) sample_space 3 (mkClock 2000)
                     (tx_of 7 51) _ _ _ _)).
    + reflexivity.
    + vm_compute. discriminate.
    + vm_compute. discriminate.
    + left. reflexivity.
Defined.

(** C9, as stated, fails for the same reason as C1: presented with a
    space that is not the subscription's, the sender's own lifetime
    subscription and a payment that covers that space's price, the call
    aborts on the overflow of the expiry instead of going through. *)
Lemma renew_against_other_space_overflows :
  let sub := creator_subscription in
  let pay := coin.mkCoin 60 100 in
  let st := tx_of 7 51 in
  let result :=
    renew_subscription creator_registry sub pay cheap_space 1 (mkClock 2000)
                       st in
  space.uid cheap_space <> space_id sub
  /\ subscriber sub = tx_sender (ctx st)
  /\ space.subscription_price cheap_space * 1 <= coin.value pay
  /\ result = Fail ArithmeticError
  /\ (forall res st', result <> Ok (res, st')).
Proof.
  cbv zeta. split; [vm_compute; discriminate|]. split; [reflexivity|].
  split; [vm_compute; discriminate|]. split; [reflexivity|].
  intros res st'. vm_compute. discriminate.
Qed.

(** C9. [renew_subscription] never compares the space it is given with
    the subscription: for a space whose id differs from
    [subscription.space_id], when the sender is the subscriber, the payment
    (a [u64]) covers that space's [subscription_price * additional_days],
    and the new expiry and day count fit in a [u64], the renewal goes
    through; the subscription stays a subscription to its own space, its
    expiry moves to [renewal_base + additional_days * ONE_DAY_MS], and the
    coin split off is exactly the price of the space passed in, which
    for [additional_days > 0] is not the price of any space with another
    daily price. *)
Theorem renew_subscription_ignores_space :
  forall reg sub pay sp d clock st,
    space.uid sp <> space_id sub ->
    subscriber sub = tx_sender (ctx st) ->
    space.subscription_price sp * d <= coin.value pay ->
    coin.value pay <= MAX_U64 ->
    renewal_base sub clock + d * ONE_DAY_MS <= MAX_U64 ->
    duration_days sub + d <= MAX_U64 ->
    exists res st',
      renew_subscription reg sub pay sp d clock st = Ok (res, st') /\
      space_id (renewed res) = space_id sub /\
      expires_at (renewed res) = renewal_base sub clock + d * ONE_DAY_MS /\
      expires_at sub <= expires_at (renewed res) /\
      coin.value (renewal_payment res) = space.subscription_price sp * d /\
      coin.value (renewal_change res)
      = coin.value pay - space.subscription_price sp * d /\
      (forall own : space.Space,
         space.uid own = space_id sub ->
         space.subscription_price own <> space.subscription_price sp ->
         0 < d ->
         coin.value (renewal_payment res)
         <> space.subscription_price own * d).
Proof.
  intros reg sub pay sp d clock st _ Hs Hp Hv Hb Hd.
  destruct (renew_subscription_ok reg sub pay sp d clock st)
    as (st' & Hr & _).
  { unfold renew_pre. repeat split; try assumption; lia. }
  eexists _, st'. split; [exact Hr|].
  cbn [renewed renewal_payment renewal_change space_id expires_at coin.value].
  repeat split.
  - unfold renewal_base.
    destruct (N.ltb_spec (expires_at sub) (timestamp_ms clock)); lia.
  - intros own _ Hne Hpos Heq. apply Hne.
    apply N.mul_cancel_r in Heq; [congruence | lia].
Qed.

Lemma renew_subscription_ignores_space_witness :
  exists res st',
    renew_subscription empty_registry fan_subscription (coin.mkCoin 60 5)
                       cheap_space 3 (mkClock 1500) (tx_of 5 70)
    = Ok (res, st') /\
    expires_at (renewed res) = 2000 + 3 * ONE_DAY_MS /\
    coin.value (renewal_payment res) = 3 /\
    coin.value (renewal_payment res)
    <> space.subscription_price sample_space * 3.
Proof.
  destruct (renew_subscription_ignores_space empty_registry fan_subscription
              (coin.mkCoin 60 5) cheap_space 3 (mkClock 1500) (tx_of 5 70))
    as (res & st' & Hr & _ & He & _ & Hc & _ & Hown);
    try (vm_compute; discriminate); try reflexivity.
  exists res, st'. split; [exact Hr|]. split; [exact He|].
  split; [exact Hc|].
  apply Hown; try reflexivity; vm_compute; discriminate.
Defined.

(** ** Subscribing *)

(** C3. When [subscribe] goes through, the coin split off is exactly
    [subscription_price * duration_days], the change is
    [payment.value] minus that price, and the subscription expires at
    [now + duration_days * ONE_DAY_MS]. With a daily price of 100 and 5
    days, a payment of 500 leaves no change and a payment of 700 leaves
    200. [duration_days = 0] is accepted: the call goes through with any
    payment, costs nothing and expires at [now]. *)
Theorem subscribe_pricing :
  (forall reg fans sp idn pay d clock st res st',
     subscribe reg fans sp idn pay d clock st = Ok (res, st') ->
     coin.value (payment_amount res) = space.subscription_price sp * d /\
     space.subscription_price sp * d <= coin.value pay /\
     coin.value (change res)
     = coin.value pay - space.subscription_price sp * d /\
     expires_at (new_subscription res)
     = timestamp_ms clock + d * ONE_DAY_MS /\
     (space.subscription_price sp = 100 -> d = 5 ->
      (coin.value pay = 500 ->
       coin.value (change res) = 0 /\
       expires_at (new_subscription res)
       = timestamp_ms clock + 5 * ONE_DAY_MS) /\
      (coin.value pay = 700 -> coin.value (change res) = 200)) /\
     (d = 0 ->
      coin.value (payment_amount res) = 0 /\
      coin.value (change res) = coin.value pay /\
      expires_at (new_subscription res) = timestamp_ms clock))
  /\
  (forall reg fans sp idn pay clock st,
     identity.owner idn = tx_sender (ctx st) ->
     is_some (identity.avatar_blob_id idn) = true ->
     is_subscribed_internal reg (tx_sender (ctx st)) (space.uid sp) = false ->
     timestamp_ms clock <= MAX_U64 ->
     total_subscriptions reg < MAX_U64 ->
     active_subscriptions reg < MAX_U64 ->
     exists res st',
       subscribe reg fans sp idn pay 0 clock st = Ok (res, st') /\
       coin.value (payment_amount res) = 0 /\
       expires_at (new_subscription res) = timestamp_ms clock).
Proof.
  split.
  - intros reg fans sp idn pay d clock st res st' H.
    pose proof (subscribe_inv _ _ _ _ _ _ _ _ _ _ H) as Hpre.
    destruct (subscribe_ok reg fans sp idn pay d clock st Hpre)
      as (res0 & st0 & H0 & Hsub & Hpaid & Hchange & _).
    rewrite H in H0. injection H0 as <- <-.
    destruct Hpre as (_ & _ & _ & _ & Hp & _).
    rewrite Hsub, Hpaid, Hchange.
    cbn [expires_at coin.value].
    repeat split; try assumption; try reflexivity.
    + subst. lia.
    + subst. reflexivity.
    + subst. lia.
    + subst. lia.
    + subst. lia.
    + subst. lia.
  - intros reg fans sp idn pay clock st Ho Ha Hn Hc Ht Hact.
    destruct (subscribe_ok reg fans sp idn pay 0 clock st)
      as (res & st' & H & Hsub & Hpaid & _).
    { unfold subscribe_pre. repeat split; try assumption; lia. }
    exists res, st'. split; [exact H|]. rewrite Hsub, Hpaid.
    cbn [expires_at]. split; lia.
Qed.

Lemma subscribe_pricing_witness :
  (exists res st',
     subscribe empty_registry empty_fans sample_space fan_identity
               (coin.mkCoin 60 500) 5 (mkClock 1000) (tx_of 5 70)
     = Ok (res, st') /\
     coin.value (change res) = 0 /\
     expires_at (new_subscription res) = 1000 + 5 * ONE_DAY_MS)
  /\
  (exists res st',
     subscribe empty_registry empty_fans sample_space fan_identity
               (coin.mkCoin 60 0) 0 (mkClock 1000) (tx_of 5 70)
     = Ok (res, st') /\
     expires_at (new_subscription res) = 1000).
Proof.
  split.
  - destruct (subscribe empty_registry empty_fans sample_space fan_identity
                (coin.mkCoin 60 500) 5 (mkClock 1000) (tx_of 5 70))
      as [[res st']|f] eqn:E; [|vm_compute in E; discriminate E].
    exists res, st'. split; [reflexivity|].
    destruct (proj1 subscribe_pricing _ _ _ _ _ _ _ _ _ _ E)
      as (_ & _ & _ & _ & Hs & _).
    destruct (Hs eq_refl eq_refl) as [Hexact _].
    exact (Hexact eq_refl).
  - destruct (proj2 subscribe_pricing empty_registry empty_fans sample_space
                fan_identity (coin.mkCoin 60 0) (mkClock 1000) (tx_of 5 70))
      as (res & st' & H & _ & He);
      try reflexivity; try (vm_compute; discriminate).
    exists res, st'. split; [exact H | exact He].
Defined.

(** C4, as stated, fails: the creator of [sample_space] is in the index
    through [create_creator_subscription], which asks for no avatar; when
    they call [subscribe] for their own space with their avatar-less
    identity the call aborts with [ENoAvatar], not [EAlreadySubscribed],
    because the identity checks come first. *)
Lemma subscribe_indexed_creator_no_avatar :
  let st := tx_of 7 52 in
  let result :=
    subscribe creator_registry empty_fans sample_space creator_identity
              (coin.mkCoin 60 500) 5 (mkClock 2000) st in
  is_subscribed_internal creator_registry (tx_sender (ctx st))
                         (space.uid sample_space) = true
  /\ result = Fail (Abort m_subscription ENoAvatar)
  /\ result <> Fail (Abort m_subscription EAlreadySubscribed).
Proof.
  cbv zeta. split; [reflexivity|]. split; [reflexivity|].
  vm_compute. discriminate.
Qed.

(** C4. When the index already holds an entry for the space and the
    sender, [subscribe] never goes through, whatever the clock says and so
    whether the earlier subscription is running or has lapsed: it aborts
    with [EAlreadySubscribed] once the identity presented is the sender's
    and carries an avatar, and with [ENoIdentity] or [ENoAvatar]
    otherwise. *)
Theorem subscribe_rejects_indexed_pair :
  forall reg fans sp idn pay d clock st,
    is_subscribed_internal reg (tx_sender (ctx st)) (space.uid sp) = true ->
    (forall res st',
       subscribe reg fans sp idn pay d clock st <> Ok (res, st')) /\
    (identity.owner idn = tx_sender (ctx st) ->
     is_some (identity.avatar_blob_id idn) = true ->
     subscribe reg fans sp idn pay d clock st
     = Fail (Abort m_subscription EAlreadySubscribed)) /\
    (identity.owner idn <> tx_sender (ctx st) ->
     subscribe reg fans sp idn pay d clock st
     = Fail (Abort m_subscription ENoIdentity)) /\
    (identity.owner idn = tx_sender (ctx st) ->
     is_some (identity.avatar_blob_id idn) = false ->
     subscribe reg fans sp idn pay d clock st
     = Fail (Abort m_subscription ENoAvatar)).
Proof.
  intros reg fans sp idn pay d clock st Hin. split; [|split; [|split]].
  - intros res st' H. apply subscribe_inv in H as (_ & _ & Hn & _).
    congruence.
  - intros Ho Ha. unfold subscribe. tx_unfold. cbn.
    apply N.eqb_eq in Ho. now rewrite Ho, Ha, Hin.
  - intros Ho. unfold subscribe. tx_unfold. cbn.
    apply N.eqb_neq in Ho. now rewrite Ho.
  - intros Ho Ha. unfold subscribe. tx_unfold. cbn.
    apply N.eqb_eq in Ho. now rewrite Ho, Ha.
Qed.

Lemma subscribe_rejects_indexed_pair_witness :
  subscribe creator_registry empty_fans sample_space
            (identity.mkIdentity 32 7 "creator" "bio" (Some "a"%string)
                                 "image-blob" 900 false)
            (coin.mkCoin 60 500) 5 (mkClock 2000) (tx_of 7 52)
  = Fail (Abort m_subscription EAlreadySubscribed).
Proof.
  apply (subscribe_rejects_indexed_pair creator_registry empty_fans
           sample_space
           (identity.mkIdentity 32 7 "creator" "bio" (Some "a"%string)
                                "image-blob" 900 false)
           (coin.mkCoin 60 500) 5 (mkClock 2000) (tx_of 7 52));
    reflexivity.
Defined.

(** C8, as stated, fails on two kinds of calls whose payment is below
    [subscription_price * duration_days]: one that presents an identity
    without an avatar aborts with [ENoAvatar] before the price is looked
    at, and one whose price does not fit in a [u64] aborts on the overflow
    of the multiplication. *)
Lemma subscribe_underpaid_other_failures :
  let no_avatar :=
    subscribe empty_registry empty_fans sample_space creator_identity
              (coin.mkCoin 60 499) 5 (mkClock 2000) (tx_of 7 52) in
  let pricey :=
    space.mkSpace 10 "gallery" "a space" "cover" "quilt" []
                  9223372036854775808 7 11 0 0 in
  let overflow :=
    subscribe empty_registry empty_fans pricey fan_identity
              (coin.mkCoin 60 499) 2 (mkClock 2000) (tx_of 5 70) in
  coin.value (coin.mkCoin 60 499) < space.subscription_price sample_space * 5
  /\ no_avatar = Fail (Abort m_subscription ENoAvatar)
  /\ no_avatar <> Fail (Abort m_subscription EInsufficientPayment)
  /\ coin.value (coin.mkCoin 60 499) < space.subscription_price pricey * 2
  /\ overflow = Fail ArithmeticError
  /\ overflow <> Fail (Abort m_subscription EInsufficientPayment).
Proof.
  cbv zeta. split; [reflexivity|]. split; [reflexivity|].
  split; [vm_compute; discriminate|]. split; [reflexivity|].
  split; [reflexivity|]. vm_compute. discriminate.
Qed.

(** C8. A call to [subscribe] whose payment is below
    [subscription_price * duration_days] never goes through, and the
    registry, the fan registry and the payment are what they were: no
    index entry, no counter increment, no fan entry, no coin split off.
    Which abort it is follows the order of the checks: [ENoIdentity] when
    the identity is not the sender's, else [ENoAvatar] when it has no
    avatar, else [EAlreadySubscribed] when the pair is in the index, else
    the arithmetic overflow when the price does not fit in a [u64], and
    [EInsufficientPayment] when all of these pass. *)
Theorem subscribe_underpaid :
  forall reg fans sp idn pay d clock st,
    coin.value pay < space.subscription_price sp * d ->
    (exists f, subscribe reg fans sp idn pay d clock st = Fail f) /\
    commit (reg, fans, pay)
           (fun res => (registry_after res, fan_registry_after res,
                        change res))
           (subscribe reg fans sp idn pay d clock st)
    = (reg, fans, pay) /\
    (identity.owner idn = tx_sender (ctx st) ->
     is_some (identity.avatar_blob_id idn) = true ->
     is_subscribed_internal reg (tx_sender (ctx st)) (space.uid sp) = false ->
     space.subscription_price sp * d <= MAX_U64 ->
     subscribe reg fans sp idn pay d clock st
     = Fail (Abort m_subscription EInsufficientPayment)) /\
    (identity.owner idn <> tx_sender (ctx st) ->
     subscribe reg fans sp idn pay d clock st
     = Fail (Abort m_subscription ENoIdentity)) /\
    (identity.owner idn = tx_sender (ctx st) ->
     is_some (identity.avatar_blob_id idn) = false ->
     subscribe reg fans sp idn pay d clock st
     = Fail (Abort m_subscription ENoAvatar)) /\
    (identity.owner idn = tx_sender (ctx st) ->
     is_some (identity.avatar_blob_id idn) = true ->
     is_subscribed_internal reg (tx_sender (ctx st)) (space.uid sp) = true ->
     subscribe reg fans sp idn pay d clock st
     = Fail (Abort m_subscription EAlreadySubscribed)) /\
    (identity.owner idn = tx_sender (ctx st) ->
     is_some (identity.avatar_blob_id idn) = true ->
     is_subscribed_internal reg (tx_sender (ctx st)) (space.uid sp) = false ->
     MAX_U64 < space.subscription_price sp * d ->
     subscribe reg fans sp idn pay d clock st = Fail ArithmeticError).
Proof.
  intros reg fans sp idn pay d clock st Hlt.
  assert (Hfail : exists f, subscribe reg fans sp idn pay d clock st = Fail f).
  { destruct (subscribe reg fans sp idn pay d clock st) as [[res st']|f] eqn:E.
    - apply subscribe_inv in E as (_ & _ & _ & _ & Hp & _). lia.
    - now exists f. }
  split; [exact Hfail|]. split; [|split; [|split; [|split; [|split]]]].
  - destruct Hfail as [f ->]. reflexivity.
  - intros Ho Ha Hn Hm. unfold subscribe. tx_unfold. cbn.
    apply N.eqb_eq in Ho. rewrite Ho, Ha, Hn. cbn.
    apply N.leb_le in Hm. rewrite Hm. cbn.
    apply N.leb_gt in Hlt. now rewrite Hlt.
  - intros Ho. unfold subscribe. tx_unfold. cbn.
    apply N.eqb_neq in Ho. now rewrite Ho.
  - intros Ho Ha. unfold subscribe. tx_unfold. cbn.
    apply N.eqb_eq in Ho. now rewrite Ho, Ha.
  - intros Ho Ha Hin. unfold subscribe. tx_unfold. cbn.
    apply N.eqb_eq in Ho. now rewrite Ho, Ha, Hin.
  - intros Ho Ha Hn Hm. unfold subscribe. tx_unfold. cbn.
    apply N.eqb_eq in Ho. rewrite Ho, Ha, Hn. cbn.
    apply N.leb_gt in Hm. now rewrite Hm.
Qed.

Lemma subscribe_underpaid_witness :
  subscribe empty_registry empty_fans sample_space fan_identity
            (coin.mkCoin 60 499) 5 (mkClock 1000) (tx_of 5 70)
  = Fail (Abort m_subscription EInsufficientPayment)
  /\ subscribe empty_registry empty_fans sample_space fan_identity
               (coin.mkCoin 60 499) 5 (mkClock 1000) (tx_of 6 70)
     = Fail (Abort m_subscription ENoIdentity).
Proof.
  split.
  - destruct (subscribe_underpaid empty_registry empty_fans sample_space
                fan_identity (coin.mkCoin 60 499) 5 (mkClock 1000)
                (tx_of 5 70)) as (_ & _ & Hpay & _);
      [reflexivity|].
    apply Hpay; try reflexivity. vm_compute. discriminate.
  - destruct (subscribe_underpaid empty_registry empty_fans sample_space
                fan_identity (coin.mkCoin 60 499) 5 (mkClock 1000)
                (tx_of 6 70)) as (_ & _ & _ & Hid & _);
      [reflexivity|].
    apply Hid. vm_compute. discriminate.
Defined.

(** ** Histories of the registries *)

Lemma create_creator_subscription_indexed reg sp creator clk st sub reg' st' :
  subscription.create_creator_subscription reg sp creator clk st
  = Ok ((sub, reg'), st') ->
  forall a s,
    subscription.is_subscribed_internal reg' a s
    = subscription.is_subscribed_internal reg a s
      || ((s =? space.uid sp) && (a =? creator)).
Proof.
  unfold subscription.create_creator_subscription. tx_unfold. cbn.
  destruct (subscription.register _ _ _ _ _) as [[subs' s1]|] eqn:R;
    [|discriminate].
  pose proof (register_inv _ _ _ _ _ _ _ R) as Hn.
  match type of R with
  | subscription.register ?a ?b ?c ?x ?s = _ =>
      destruct (register_ok a b c x s Hn) as (subs2 & s2 & R2 & _ & Hidx)
  end.
  rewrite R in R2. injection R2 as <- <-.
  destruct (_ <=? MAX_U64); cbn; [|discriminate].
  destruct (_ <=? MAX_U64); cbn; [|discriminate].
  intros [= <- <- <-] a s.
  rewrite !is_subscribed_internal_indexed. cbn. apply Hidx.
Qed.

Lemma subscribe_indexed reg fans sp idn pay d clk st res st' :
  subscription.subscribe reg fans sp idn pay d clk st = Ok (res, st') ->
  forall a s,
    subscription.is_subscribed_internal (subscription.registry_after res) a s
    = subscription.is_subscribed_internal reg a s
      || ((s =? space.uid sp) && (a =? tx_sender (ctx st))).
Proof.
  intros H.
  pose proof (subscribe_inv _ _ _ _ _ _ _ _ _ _ H) as Hpre.
  destruct (subscribe_ok reg fans sp idn pay d clk st Hpre)
    as (res0 & st0 & H0 & _ & _ & _ & _ & _ & Hidx & _).
  rewrite H in H0. injection H0 as <- <-. exact Hidx.
Qed.

Lemma init_not_indexed st reg st' :
  subscription.init st = Ok (reg, st') ->
  forall a s, subscription.is_subscribed_internal reg a s = false.
Proof.
  unfold subscription.init, table.new. tx_unfold. cbn.
  now intros [= <- <-] a s.
Qed.

Lemma history_indexed h reg :
  subscription_history h reg ->
  forall a s,
    subscription.is_subscribed_internal reg a s = true <-> In (s, a) h.
Proof.
  induction 1 as [st r st' Hi
                 | h r sp creator clk st sub r' st' _ IH Hc
                 | h r fans sp idn pay d clk st res st' _ IH Hs
                 | h r sub pay sp d clk st res st' _ IH _]; intros a s.
  - rewrite (init_not_indexed _ _ _ Hi). cbn. split; [discriminate | tauto].
  - rewrite (create_creator_subscription_indexed _ _ _ _ _ _ _ _ Hc).
    rewrite orb_true_iff, andb_true_iff, !N.eqb_eq, IH. cbn.
    split; [intros [?|[-> ->]]; auto | intros [[= -> ->]|?]; auto].
  - rewrite (subscribe_indexed _ _ _ _ _ _ _ _ _ _ Hs).
    rewrite orb_true_iff, andb_true_iff, !N.eqb_eq, IH. cbn.
    split; [intros [?|[-> ->]]; auto | intros [[= -> ->]|?]; auto].
  - apply IH.
Qed.

(** C7. [is_subscribed] reports presence in the index. In a registry
    reached through calls that went through for the pairs [h], it is true
    exactly for the pairs of [h], so false for a pair never subscribed; it
    is false when the space has no inner table; it is true for the sender
    and the space right after a [subscribe] that went through; it ignores
    its clock argument; and it stays true at every time after
    [expires_at], when [is_expired] has become true. *)
Theorem is_subscribed_reflects_presence :
  (forall h reg, subscription_history h reg ->
     forall a s clock,
       (is_subscribed reg a s clock = true <-> In (s, a) h) /\
       (~ In (s, a) h -> is_subscribed reg a s clock = false))
  /\
  (forall reg a s clock,
     table.contains (subscriptions reg) s = false ->
     is_subscribed reg a s clock = false)
  /\
  (forall reg fans sp idn pay d clock st res st',
     subscribe reg fans sp idn pay d clock st = Ok (res, st') ->
     forall later,
       is_subscribed (registry_after res) (tx_sender (ctx st))
                     (space.uid sp) later = true /\
       (expires_at (new_subscription res) < timestamp_ms later ->
        is_expired (new_subscription res) later = true))
  /\
  (forall reg a s clock1 clock2,
     is_subscribed reg a s clock1 = is_subscribed reg a s clock2).
Proof.
  split; [|split; [|split]].
  - intros h reg Hh a s clock. unfold is_subscribed.
    pose proof (history_indexed h reg Hh a s) as Hiff.
    split; [exact Hiff|]. intros Hnot.
    destruct (is_subscribed_internal reg a s); [|reflexivity].
    exfalso. apply Hnot, Hiff. reflexivity.
  - intros reg a s clock Hc. unfold is_subscribed, is_subscribed_internal.
    now rewrite Hc.
  - intros reg fans sp idn pay d clock st res st' H later.
    unfold is_subscribed, is_expired. split.
    + rewrite (subscribe_indexed _ _ _ _ _ _ _ _ _ _ H).
      rewrite !N.eqb_refl. apply orb_true_r.
    + intros Hlt. now apply N.ltb_lt.
  - reflexivity.
Qed.

Lemma is_subscribed_reflects_presence_witness :
  exists res st',
    subscribe empty_registry empty_fans sample_space fan_identity
              (coin.mkCoin 60 500) 5 (mkClock 1000) (tx_of 5 70)
    = Ok (res, st') /\
    is_subscribed empty_registry 5 10 (mkClock 1000) = false /\
    is_subscribed (registry_after res) 5 10 (mkClock 432001001) = true /\
    is_expired (new_subscription res) (mkClock 432001001) = true /\
    is_subscribed (registry_after res) 6 10 (mkClock 432001001) = false.
Proof.
  destruct (subscribe empty_registry empty_fans sample_space fan_identity
              (coin.mkCoin 60 500) 5 (mkClock 1000) (tx_of 5 70))
    as [[res st']|f] eqn:E; [|vm_compute in E; discriminate E].
  exists res, st'. split; [reflexivity|].
  destruct is_subscribed_reflects_presence as (Hhist & Houter & Hafter & _).
  split; [apply Houter; reflexivity|].
  destruct (Hafter _ _ _ _ _ _ _ _ _ _ E (mkClock 432001001))
    as [Hpresent Hexpired].
  split; [exact Hpresent|]. split.
  - apply Hexpired.
    pose proof E as E'. vm_compute in E'. injection E' as <- <-.
    reflexivity.
  - assert (Hh : subscription_history [(10, 5)] (registry_after res)).
    { apply (hist_subscribe [] empty_registry empty_fans sample_space
               fan_identity (coin.mkCoin 60 500) 5 (mkClock 1000)
               (tx_of 5 70) res st'); [|exact E].
      apply (hist_init (mkTxState (mkTxContext 0 0 1) []) empty_registry
               (mkTxState (mkTxContext 0 0 3) [])).
      reflexivity. }
    apply (Hhist _ _ Hh 6 10 (mkClock 432001001)).
    cbn. intros [[=]|[]].
Defined.

(** ** The identity registry *)

Lemma mint_identity_inv r u b a i clk st idn r' st' :
  identity.mint_identity r u b a i clk st = Ok ((idn, r'), st') ->
  table.contains (identity.identities r) (tx_sender (ctx st)) = false /\
  identity.owner idn = tx_sender (ctx st) /\
  identity.avatar_blob_id idn = (if is_empty a then None else Some a) /\
  identity.identities r'
  = table.mkTable (table.uid (identity.identities r))
      (table.entries (identity.identities r)
         ++ [(tx_sender (ctx st), identity.uid idn)]).
Proof.
  unfold identity.mint_identity. tx_unfold. unfold table.add. tx_unfold. cbn.
  destruct (table.contains (identity.identities r) (tx_sender (ctx st)));
    cbn; [discriminate|].
  destruct (is_empty i); cbn; [discriminate|].
  destruct (_ <=? MAX_U64); cbn; [|discriminate].
  intros [= <- <- <-]. cbn. auto.
Qed.

Lemma initialize_space_identities sreg r name description cover quilt price
      payment clk st res st' :
  space.initialize_space sreg r name description cover quilt price payment
                         clk st = Ok (res, st') ->
  identity.identities (space.identity_registry_after res)
  = identity.identities r.
Proof.
  unfold space.initialize_space, identity.increment_creator_count,
    coin.split.
  tx_unfold. cbn.
  destruct (space.SPACE_INIT_FEE <=? coin.value payment); cbn;
    [|discriminate].
  destruct (_ <=? MAX_U64); cbn; [|discriminate].
  destruct (_ <=? MAX_U64); cbn; [|discriminate].
  now intros [= <- <-].
Qed.

Lemma identity_reachable_NoDup r :
  identity_reachable r -> NoDup (table.keys (identity.identities r)).
Proof.
  induction 1 as [st r st' Hi
                 | r u b a i clk st idn r' st' _ IH Hm
                 | r sreg n d c q p pay clk st res st' _ IH Hs].
  - unfold identity.init, table.new in Hi. tx_unfold. cbn in Hi.
    injection Hi as <- <-. constructor.
  - apply mint_identity_inv in Hm as (Hc & _ & _ & ->).
    eapply add_keys_NoDup with (s := st); [exact IH|].
    apply add_ok. exact Hc.
  - now rewrite (initialize_space_identities _ _ _ _ _ _ _ _ _ _ _ _ Hs).
Qed.

(** C6. A principal registers at most once. When the registry already
    holds an entry for the sender, [mint_identity] aborts with
    [EIdentityAlreadyExists] and the registry is what it was; a
    [mint_identity] that goes through leaves the sender in the registry,
    and [initialize_space] leaves the table alone; so in every registry
    reached from [init] the keys of the principal-to-identity table are
    pairwise distinct. *)
Theorem identity_registered_once :
  (forall reg username bio avatar image clock st,
     identity.has_identity reg (tx_sender (ctx st)) = true ->
     identity.mint_identity reg username bio avatar image clock st
     = Fail (Abort m_identity identity.EIdentityAlreadyExists) /\
     commit reg snd
            (identity.mint_identity reg username bio avatar image clock st)
     = reg)
  /\
  (forall reg username bio avatar image clock st idn reg' st',
     identity.mint_identity reg username bio avatar image clock st
     = Ok ((idn, reg'), st') ->
     identity.has_identity reg (tx_sender (ctx st)) = false /\
     identity.has_identity reg' (tx_sender (ctx st)) = true /\
     forall a, identity.has_identity reg a = true ->
               identity.has_identity reg' a = true)
  /\
  (forall reg, identity_reachable reg ->
     NoDup (table.keys (identity.identities reg))).
Proof.
  split; [|split].
  - intros reg username bio avatar image clock st Hc.
    unfold identity.has_identity in Hc.
    assert (E : identity.mint_identity reg username bio avatar image clock st
                = Fail (Abort m_identity identity.EIdentityAlreadyExists)).
    { unfold identity.mint_identity. tx_unfold. cbn. now rewrite Hc. }
    split; [exact E|]. now rewrite E.
  - intros reg username bio avatar image clock st idn reg' st' H.
    apply mint_identity_inv in H as (Hc & _ & _ & Hids).
    unfold identity.has_identity. rewrite Hids.
    split; [exact Hc|]. unfold table.contains in *. cbn.
    split.
    + rewrite lookup_app_last, N.eqb_refl.
      now destruct (table.lookup _ _).
    + intros a. rewrite lookup_app_last.
      now destruct (table.lookup a _).
  - exact identity_reachable_NoDup.
Qed.

Lemma identity_registered_once_witness :
  let st0 := mkTxState (mkTxContext 0 0 0) [] in
  let reg0 := identity.mkIdentityRegistry 0 (table.mkTable 1 []) 0 0 in
  exists idn reg st',
    identity.init st0 = Ok (reg0, mkTxState (mkTxContext 0 0 2) []) /\
    identity.mint_identity reg0 "fan" "bio" "" "image-blob" (mkClock 900)
                           (tx_of 5 60)
    = Ok ((idn, reg), st') /\
    identity.mint_identity reg "again" "bio" "" "image-blob" (mkClock 950)
                           (tx_of 5 61)
    = Fail (Abort m_identity identity.EIdentityAlreadyExists) /\
    NoDup (table.keys (identity.identities reg)).
Proof.
  cbv zeta.
  destruct (identity.mint_identity
              (identity.mkIdentityRegistry 0 (table.mkTable 1 []) 0 0)
              "fan" "bio" "" "image-blob" (mkClock 900) (tx_of 5 60))
    as [[[idn reg] st']|f] eqn:E; [|vm_compute in E; discriminate E].
  exists idn, reg, st'. split; [reflexivity|]. split; [reflexivity|].
  destruct identity_registered_once as (Hagain & Hfirst & Hreach).
  split.
  - apply Hagain.
    destruct (Hfirst _ _ _ _ _ _ _ _ _ _ E) as (_ & Hin & _). exact Hin.
  - apply Hreach.
    apply (reach_mint_identity _ _ _ _ _ _ _ _ _ _
             (reach_identity_init (mkTxState (mkTxContext 0 0 0) []) _ _
                                  eq_refl) E).
Defined.

(** ** Avatars *)

Lemma subscribe_no_avatar_only reg fans sp idn pay d clk st :
  subscription.subscribe reg fans sp idn pay d clk st
  = Fail (Abort m_subscription subscription.ENoAvatar) ->
  is_some (identity.avatar_blob_id idn) = false.
Proof.
  destruct (is_some (identity.avatar_blob_id idn)) eqn:Ha; [|reflexivity].
  unfold subscription.subscribe, coin.split. tx_unfold. cbn. rewrite Ha. cbn.
  destruct (identity.owner idn =? tx_sender (ctx st)); cbn; [|discriminate].
  destruct (subscription.is_subscribed_internal _ _ _) eqn:Hn; cbn;
    [discriminate|].
  destruct (_ <=? MAX_U64); cbn; [|discriminate].
  destruct (_ <=? coin.value pay); cbn; [|discriminate].
  destruct (_ <=? MAX_U64); cbn; [|discriminate].
  destruct (_ <=? MAX_U64); cbn; [|discriminate].
  rewrite is_subscribed_internal_indexed in Hn.
  match goal with
  | |- context [subscription.register ?a ?b ?c ?x ?s] =>
      destruct (register_ok a b c x s Hn) as (subs' & s1 & Hr & _ & _);
      rewrite Hr
  end.
  destruct (_ <=? MAX_U64); cbn; [|discriminate].
  destruct (_ <=? MAX_U64); cbn; [|discriminate].
  destruct (identity.avatar_blob_id idn) as [avatar|]; [|discriminate].
  cbn.
  match goal with
  | |- context [space.add_fan_avatar ?f ?p ?a ?v ?s] =>
      destruct (add_fan_avatar_ok f p a v s) as (fans' & s2 & Hf & _);
      rewrite Hf
  end.
  discriminate.
Qed.

Lemma bind_avatar_ok idn s st :
  identity.owner idn = tx_sender (ctx st) ->
  identity.bind_avatar idn s st
  = Ok (identity.mkIdentity
          (identity.uid idn) (identity.owner idn) (identity.username idn)
          (identity.bio idn) (Some s) (identity.image_blob_id idn)
          (identity.created_at idn) (identity.is_creator idn),
        mkTxState (ctx st)
          (events st
             ++ [AvatarBound (identity.uid idn) (identity.owner idn) s])).
Proof.
  intros Ho. unfold identity.bind_avatar. tx_unfold. cbn.
  apply N.eqb_eq in Ho. now rewrite Ho.
Qed.

(** C10. [mint_identity] turns an empty avatar string into no avatar,
    but [bind_avatar] takes any string from the owner, the empty one
    included, and stores it as [Some]; from then on [subscribe] never
    aborts with [ENoAvatar] for that identity, and when its other checks
    pass it goes through and records that string as the fan's avatar. *)
Theorem bind_avatar_accepts_any_string :
  (forall reg username bio image clock st idn reg' st',
     identity.mint_identity reg username bio "" image clock st
     = Ok ((idn, reg'), st') ->
     identity.avatar_blob_id idn = None)
  /\
  (forall idn s st,
     identity.owner idn = tx_sender (ctx st) ->
     exists idn' st',
       identity.bind_avatar idn s st = Ok (idn', st') /\
       identity.avatar_blob_id idn' = Some s /\
       is_some (identity.avatar_blob_id idn') = true /\
       (forall reg fans sp pay d clock st2,
          subscribe reg fans sp idn' pay d clock st2
          <> Fail (Abort m_subscription ENoAvatar)) /\
       (forall reg fans sp pay d clock st2,
          tx_sender (ctx st2) = identity.owner idn ->
          is_subscribed_internal reg (tx_sender (ctx st2)) (space.uid sp)
          = false ->
          space.subscription_price sp * d <= coin.value pay ->
          coin.value pay <= MAX_U64 ->
          timestamp_ms clock + d * ONE_DAY_MS <= MAX_U64 ->
          total_subscriptions reg < MAX_U64 ->
          active_subscriptions reg < MAX_U64 ->
          exists res st3,
            subscribe reg fans sp idn' pay d clock st2 = Ok (res, st3) /\
            fan_avatar_of (fan_registry_after res) (space.uid sp)
                          (tx_sender (ctx st2))
            = Some (space.mkFanAvatar (tx_sender (ctx st2)) s))).
Proof.
  split.
  - intros reg username bio image clock st idn reg' st' H.
    now apply mint_identity_inv in H as (_ & _ & -> & _).
  - intros idn s st Ho.
    rewrite (bind_avatar_ok idn s st Ho).
    eexists _, _. split; [reflexivity|].
    split; [reflexivity|]. split; [reflexivity|]. split.
    + intros reg fans sp pay d clock st2 H.
      apply subscribe_no_avatar_only in H. discriminate H.
    + intros reg fans sp pay d clock st2 Hs Hn Hp Hv He Ht Hact.
      match goal with
      | |- context [subscribe reg fans sp ?i pay d clock st2] =>
          destruct (subscribe_ok reg fans sp i pay d clock st2)
            as (res & st3 & H & _ & _ & _ & _ & _ & _ & Hfan)
      end.
      { unfold subscribe_pre. cbn [identity.owner identity.avatar_blob_id].
        repeat split; try assumption; try lia. }
      exists res, st3. split; [exact H|]. apply Hfan. reflexivity.
Qed.

Lemma bind_avatar_accepts_any_string_witness :
  exists idn' st' res st3,
    identity.bind_avatar creator_identity "" (tx_of 7 53) = Ok (idn', st') /\
    identity.avatar_blob_id idn' = Some ""%string /\
    subscribe empty_registry empty_fans cheap_space idn'
              (coin.mkCoin 60 5) 5 (mkClock 1000) (tx_of 7 54)
    = Ok (res, st3) /\
    fan_avatar_of (fan_registry_after res) 20 7
    = Some (space.mkFanAvatar 7 "").
Proof.
  destruct (proj2 bind_avatar_accepts_any_string creator_identity ""%string
              (tx_of 7 53) eq_refl)
    as (idn' & st' & Hb & Ha & _ & _ & Hsub).
  destruct (Hsub empty_registry empty_fans cheap_space (coin.mkCoin 60 5) 5
              (mkClock 1000) (tx_of 7 54))
    as (res & st3 & Hs & Hfan);
    try reflexivity; try (vm_compute; discriminate).
  exists idn', st', res, st3. auto.
Defined.

(** * Further properties of the three modules *)

(** ** Identities *)

(** X1. The three mutators of an identity are for its owner only: from
    any other sender [bind_avatar], [update_image] and [update_bio] abort
    with [ENotIdentityOwner], whatever string is passed (the empty image
    included). *)
Theorem identity_mutators_owner_only :
  forall idn s st,
    identity.owner idn <> tx_sender (ctx st) ->
    identity.bind_avatar idn s st
    = Fail (Abort m_identity identity.ENotIdentityOwner) /\
    identity.update_image idn s st
    = Fail (Abort m_identity identity.ENotIdentityOwner) /\
    identity.update_bio idn s st
    = Fail (Abort m_identity identity.ENotIdentityOwner).
Proof.
  intros idn s st Hne. apply N.eqb_neq in Hne.
  unfold identity.bind_avatar, identity.update_image, identity.update_bio.
  tx_unfold. cbn. rewrite Hne. auto.
Qed.

Lemma identity_mutators_owner_only_witness :
  identity.update_image fan_identity "" (tx_of 6 80)
  = Fail (Abort m_identity identity.ENotIdentityOwner).
Proof.
  apply (identity_mutators_owner_only fan_identity ""%string (tx_of 6 80)).
  vm_compute. discriminate.
Defined.

(** X2. For a sender that is not registered yet, [mint_identity] aborts
    with [EImageRequired] on an empty image string; with a non-empty one
    and room in the counter it goes through: the identity belongs to the
    sender, is not a creator, carries the clock's time and the strings
    given (an empty avatar as no avatar); the registry gets one more
    identity and the same number of creators; one [IdentityMinted] event
    is emitted. *)
Theorem mint_identity_outcomes :
  forall reg username bio avatar image clock st,
    identity.has_identity reg (tx_sender (ctx st)) = false ->
    (is_empty image = true ->
     identity.mint_identity reg username bio avatar image clock st
     = Fail (Abort m_identity identity.EImageRequired)) /\
    (is_empty image = false ->
     identity.total_identities reg < MAX_U64 ->
     exists idn reg' st',
       identity.mint_identity reg username bio avatar image clock st
       = Ok ((idn, reg'), st') /\
       idn = identity.mkIdentity
               (derive_id (tx_hash (ctx st)) (ids_created (ctx st)))
               (tx_sender (ctx st)) username bio
               (if is_empty avatar then None else Some avatar) image
               (timestamp_ms clock) false /\
       identity.total_identities reg' = identity.total_identities reg + 1 /\
       identity.total_creators reg' = identity.total_creators reg /\
       identity.registry_uid reg' = identity.registry_uid reg /\
       events st'
       = events st
           ++ [IdentityMinted (identity.uid idn) (tx_sender (ctx st))
                              username (timestamp_ms clock)]).
Proof.
  intros reg username bio avatar image clock st Hc.
  unfold identity.has_identity in Hc.
  unfold identity.mint_identity. tx_unfold. cbn. rewrite Hc. cbn. split.
  - intros He. now rewrite He.
  - intros He Ht. rewrite He. cbn. rewrite (add_ok _ _ _ _ Hc).
    assert (Hle : (identity.total_identities reg + 1 <=? MAX_U64) = true)
      by (apply N.leb_le; lia).
    rewrite Hle. cbn. eexists _, _, _. split; [reflexivity|]. cbn. auto.
Qed.

Lemma mint_identity_outcomes_witness :
  let reg0 := identity.mkIdentityRegistry 0 (table.mkTable 1 []) 0 0 in
  identity.mint_identity reg0 "fan" "bio" "" "" (mkClock 900) (tx_of 5 60)
  = Fail (Abort m_identity identity.EImageRequired)
  /\ exists idn reg' st',
       identity.mint_identity reg0 "fan" "bio" "" "img" (mkClock 900)
                              (tx_of 5 60) = Ok ((idn, reg'), st') /\
       identity.avatar_blob_id idn = None /\
       identity.total_identities reg' = 1.
Proof.
  cbv zeta.
  destruct (mint_identity_outcomes
              (identity.mkIdentityRegistry 0 (table.mkTable 1 []) 0 0)
              "fan" "bio" "" "" (mkClock 900) (tx_of 5 60) eq_refl)
    as [Hempty _].
  split; [apply Hempty; reflexivity|].
  destruct (mint_identity_outcomes
              (identity.mkIdentityRegistry 0 (table.mkTable 1 []) 0 0)
              "fan" "bio" "" "img" (mkClock 900) (tx_of 5 60) eq_refl)
    as [_ Hok].
  destruct (Hok eq_refl eq_refl) as (idn & reg' & st' & H & Hid & Ht & _).
  exists idn, reg', st'. split; [exact H|].
  split; [rewrite Hid; reflexivity | exact Ht].
Defined.

Lemma bind_avatar_inv idn s st idn' st' :
  identity.bind_avatar idn s st = Ok (idn', st') ->
  identity.owner idn = tx_sender (ctx st) /\
  idn' = identity.mkIdentity
           (identity.uid idn) (identity.owner idn) (identity.username idn)
           (identity.bio idn) (Some s) (identity.image_blob_id idn)
           (identity.created_at idn) (identity.is_creator idn).
Proof.
  unfold identity.bind_avatar. tx_unfold. cbn.
  destruct (N.eqb_spec (identity.owner idn) (tx_sender (ctx st)));
    cbn; [|discriminate].
  now intros [= <- <-].
Qed.

Lemma update_image_inv idn s st idn' st' :
  identity.update_image idn s st = Ok (idn', st') ->
  identity.owner idn = tx_sender (ctx st) /\ is_empty s = false /\
  st' = st /\
  idn' = identity.mkIdentity
           (identity.uid idn) (identity.owner idn) (identity.username idn)
           (identity.bio idn) (identity.avatar_blob_id idn) s
           (identity.created_at idn) (identity.is_creator idn).
Proof.
  unfold identity.update_image. tx_unfold. cbn.
  destruct (N.eqb_spec (identity.owner idn) (tx_sender (ctx st)));
    cbn; [|discriminate].
  destruct (is_empty s); cbn; [discriminate|].
  now intros [= <- <-].
Qed.

Lemma update_bio_inv idn s st idn' st' :
  identity.update_bio idn s st = Ok (idn', st') ->
  identity.owner idn = tx_sender (ctx st) /\ st' = st /\
  idn' = identity.mkIdentity
           (identity.uid idn) (identity.owner idn) (identity.username idn)
           s (identity.avatar_blob_id idn) (identity.image_blob_id idn)
           (identity.created_at idn) (identity.is_creator idn).
Proof.
  unfold identity.update_bio. tx_unfold. cbn.
  destruct (N.eqb_spec (identity.owner idn) (tx_sender (ctx st)));
    cbn; [|discriminate].
  now intros [= <- <-].
Qed.

(** X3. Through its whole life (minted, then any number of
    [bind_avatar], [update_image] and [update_bio] calls that went
    through) an identity keeps the owner that minted it, always has a
    non-empty image, and is never marked as a creator: no entry point sets
    [is_creator]. *)
Theorem identity_lifecycle_invariant :
  forall minter idn,
    identity_lifecycle minter idn ->
    identity.owner idn = minter /\
    is_empty (identity.image_blob_id idn) = false /\
    identity.is_creator idn = false.
Proof.
  intros minter idn H.
  induction H as [reg u b a i clk st idn reg' st' Hs Hm
                 | idn a st idn' st' _ IH Hb
                 | idn i st idn' st' _ IH Hu
                 | idn b st idn' st' _ IH Hu].
  - unfold identity.mint_identity in Hm. tx_unfold. cbn in Hm.
    destruct (negb _); cbn in Hm; [|discriminate].
    destruct (is_empty i) eqn:Ei; cbn in Hm; [discriminate|].
    destruct (table.add _ _ _ _) as [[ids s1]|]; [|discriminate].
    destruct (_ <=? MAX_U64); cbn in Hm; [|discriminate].
    injection Hm as <- _ _. cbn. auto.
  - apply bind_avatar_inv in Hb as (_ & ->). exact IH.
  - apply update_image_inv in Hu as (_ & He & _ & ->). cbn.
    destruct IH as (Ho & _ & Hc). auto.
  - apply update_bio_inv in Hu as (_ & _ & ->). exact IH.
Qed.

Lemma identity_lifecycle_invariant_witness :
  exists idn1 reg st1 idn2 st2,
    identity.mint_identity
      (identity.mkIdentityRegistry 0 (table.mkTable 1 []) 0 0)
      "fan" "bio" "" "img" (mkClock 900) (tx_of 5 60)
    = Ok ((idn1, reg), st1) /\
    identity.update_image idn1 "img2" (tx_of 5 61) = Ok (idn2, st2) /\
    identity.owner idn2 = 5 /\
    is_empty (identity.image_blob_id idn2) = false /\
    identity.is_creator idn2 = false.
Proof.
  destruct (identity.mint_identity
              (identity.mkIdentityRegistry 0 (table.mkTable 1 []) 0 0)
              "fan" "bio" "" "img" (mkClock 900) (tx_of 5 60))
    as [[[idn1 reg] st1]|f] eqn:E1; [|vm_compute in E1; discriminate E1].
  destruct (identity.update_image idn1 "img2" (tx_of 5 61))
    as [[idn2 st2]|f] eqn:E2.
  - exists idn1, reg, st1, idn2, st2. split; [reflexivity|].
    split; [exact E2|].
    apply (identity_lifecycle_invariant 5 idn2).
    apply (life_update_image 5 idn1 "img2" (tx_of 5 61) idn2 st2);
      [|exact E2].
    apply (life_minted 5 _ _ _ _ _ _ (tx_of 5 60) _ _ _ eq_refl E1).
  - vm_compute in E1. injection E1 as <- _ _.
    vm_compute in E2. discriminate E2.
Defined.

(** X4. Minting records the identity under the sender: right after a
    [mint_identity] that went through, [get_identity_id] gives the id of
    the identity handed back for the sender (it gave none before), and what
    it gives for every other address is what it gave before. *)
Theorem get_identity_id_after_mint :
  forall reg username bio avatar image clock st idn reg' st',
    identity.mint_identity reg username bio avatar image clock st
    = Ok ((idn, reg'), st') ->
    identity.get_identity_id reg (tx_sender (ctx st)) = None /\
    identity.get_identity_id reg' (tx_sender (ctx st))
    = Some (identity.uid idn) /\
    (forall a, a <> tx_sender (ctx st) ->
               identity.get_identity_id reg' a
               = identity.get_identity_id reg a).
Proof.
  intros reg username bio avatar image clock st idn reg' st' H.
  apply mint_identity_inv in H as (Hc & _ & _ & Hids).
  unfold identity.get_identity_id. rewrite Hids. cbn.
  apply contains_false in Hc. split; [exact Hc|]. split.
  - now rewrite lookup_app_last, Hc, N.eqb_refl.
  - intros a Ha. rewrite lookup_app_last.
    destruct (table.lookup a _); [reflexivity|].
    apply N.eqb_neq in Ha. now rewrite Ha.
Qed.

Lemma get_identity_id_after_mint_witness :
  exists idn reg st',
    identity.mint_identity
      (identity.mkIdentityRegistry 0 (table.mkTable 1 []) 0 0)
      "fan" "bio" "" "img" (mkClock 900) (tx_of 5 60)
    = Ok ((idn, reg), st') /\
    identity.get_identity_id reg 5 = Some (identity.uid idn) /\
    identity.get_identity_id reg 6 = None.
Proof.
  destruct (identity.mint_identity
              (identity.mkIdentityRegistry 0 (table.mkTable 1 []) 0 0)
              "fan" "bio" "" "img" (mkClock 900) (tx_of 5 60))
    as [[[idn reg] st']|f] eqn:E; [|vm_compute in E; discriminate E].
  exists idn, reg, st'. split; [reflexivity|].
  destruct (get_identity_id_after_mint _ _ _ _ _ _ _ _ _ _ E)
    as (_ & Hme & Hother).
  split; [exact Hme|]. rewrite (Hother 6); [reflexivity|].
  vm_compute. discriminate.
Defined.

(** ** Spaces *)

Lemma initialize_space_inv sreg ireg name description cover quilt price
      payment clk st res st' :
  space.initialize_space sreg ireg name description cover quilt price payment
                         clk st = Ok (res, st') ->
  (space.SPACE_INIT_FEE <= coin.value payment /\
   space.total_spaces sreg + 1 <= MAX_U64 /\
   identity.total_creators ireg + 1 <= MAX_U64) /\
  (space.space_id (space.ownership res)
   = space.uid (space.shared_space res) /\
   space.name (space.shared_space res) = name /\
   space.description (space.shared_space res) = description /\
   space.cover_image (space.shared_space res) = cover /\
   space.config_quilt (space.shared_space res) = quilt /\
   space.video_blob_ids (space.shared_space res) = [] /\
   space.subscription_price (space.shared_space res) = price /\
   space.creator (space.shared_space res) = tx_sender (ctx st) /\
   space.marketplace_kiosk_id (space.shared_space res)
   = space.marketplace_kiosk res /\
   space.created_at (space.shared_space res) = timestamp_ms clk /\
   space.updated_at (space.shared_space res) = timestamp_ms clk) /\
  (coin.value (space.fee res) = space.SPACE_INIT_FEE /\
   space.change res
   = coin.mkCoin (coin.uid payment)
                 (coin.value payment - space.SPACE_INIT_FEE)) /\
  (space.registry_after res
   = space.mkSpaceRegistry
       (space.space_registry_uid sreg)
       (space.spaces sreg ++ [space.uid (space.shared_space res)])
       (space.total_spaces sreg + 1) /\
   space.identity_registry_after res
   = identity.mkIdentityRegistry
       (identity.registry_uid ireg) (identity.identities ireg)
       (identity.total_identities ireg)
       (identity.total_creators ireg + 1)) /\
  events st'
  = events st
      ++ [SpaceInitialized (space.uid (space.shared_space res))
                           (space.marketplace_kiosk res) (tx_sender (ctx st))
                           name price (timestamp_ms clk)].
Proof.
  unfold space.initialize_space, identity.increment_creator_count,
    coin.split.
  tx_unfold.
  cbn [ctx events tx_sender tx_hash ids_created fst snd].
  destruct (N.leb_spec space.SPACE_INIT_FEE (coin.value payment)) as [Hp|Hp];
    [|discriminate].
  cbn [ctx events tx_sender tx_hash ids_created space.uid].
  destruct (N.leb_spec (space.total_spaces sreg + 1) MAX_U64) as [Hs|Hs];
    [|discriminate].
  destruct (N.leb_spec (identity.total_creators ireg + 1) MAX_U64)
    as [Hc|Hc]; [|discriminate].
  intros [= <- <-].
  repeat split; assumption.
Qed.

Lemma initialize_space_ok sreg ireg name description cover quilt price
      payment clk st :
  space.SPACE_INIT_FEE <= coin.value payment ->
  space.total_spaces sreg < MAX_U64 ->
  identity.total_creators ireg < MAX_U64 ->
  exists res st',
    space.initialize_space sreg ireg name description cover quilt price
                           payment clk st = Ok (res, st').
Proof.
  intros Hp Hs Hc.
  unfold space.initialize_space, identity.increment_creator_count,
    coin.split.
  tx_unfold.
  cbn [ctx events tx_sender tx_hash ids_created fst snd].
  apply N.leb_le in Hp. rewrite Hp.
  cbn [ctx events tx_sender tx_hash ids_created space.uid].
  assert (H1 : (space.total_spaces sreg + 1 <=? MAX_U64) = true)
    by (apply N.leb_le; lia).
  assert (H2 : (identity.total_creators ireg + 1 <=? MAX_U64) = true)
    by (apply N.leb_le; lia).
  rewrite H1, H2. tx_unfold. eexists _, _. reflexivity.
Qed.

(** X5. [initialize_space] aborts with [EInsufficientPayment] when the
    payment is below the fixed fee of 100,000,000. With the fee covered and
    room in the two counters it goes through: the fee coin holds exactly
    the fee and the change the rest of the payment; the space shared
    belongs to the sender, has the strings and the price given, no video,
    and the clock's time as creation and update time; the ownership
    capability names that space; one [SpaceInitialized] event is
    emitted. *)
Theorem initialize_space_outcomes :
  forall sreg ireg name description cover quilt price payment clock st,
    (coin.value payment < space.SPACE_INIT_FEE ->
     space.initialize_space sreg ireg name description cover quilt price
                            payment clock st
     = Fail (Abort m_space space.EInsufficientPayment)) /\
    (space.SPACE_INIT_FEE <= coin.value payment ->
     space.total_spaces sreg < MAX_U64 ->
     identity.total_creators ireg < MAX_U64 ->
     exists res st',
       space.initialize_space sreg ireg name description cover quilt price
                              payment clock st = Ok (res, st') /\
       coin.value (space.fee res) = 100000000 /\
       coin.value (space.fee res) + coin.value (space.change res)
       = coin.value payment /\
       coin.uid (space.change res) = coin.uid payment /\
       space.space_id (space.ownership res)
       = space.uid (space.shared_space res) /\
       space.creator (space.shared_space res) = tx_sender (ctx st) /\
       space.subscription_price (space.shared_space res) = price /\
       space.video_blob_ids (space.shared_space res) = [] /\
       space.created_at (space.shared_space res) = timestamp_ms clock /\
       space.updated_at (space.shared_space res) = timestamp_ms clock /\
       space.marketplace_kiosk_id (space.shared_space res)
       = space.marketplace_kiosk res /\
       events st'
       = events st
           ++ [SpaceInitialized (space.uid (space.shared_space res))
                                (space.marketplace_kiosk res)
                                (tx_sender (ctx st)) name price
                                (timestamp_ms clock)]).
Proof.
  intros sreg ireg name description cover quilt price payment clock st.
  split.
  - intros Hlt. unfold space.initialize_space. tx_unfold.
    cbn [ctx events tx_sender tx_hash ids_created fst snd].
    apply N.leb_gt in Hlt. now rewrite Hlt.
  - intros Hp Hs Hc.
    destruct (initialize_space_ok sreg ireg name description cover quilt
                price payment clock st Hp Hs Hc) as (res & st' & H).
    exists res, st'. split; [exact H|].
    apply initialize_space_inv in H
      as (_ & (Hown & _ & _ & _ & _ & Hv & Hpr & Hcr & Hk & Hca & Hua)
          & (Hfee & Hch) & _ & Hev).
    rewrite Hfee, Hch.
    cbn [coin.value coin.uid].
    unfold space.SPACE_INIT_FEE in *.
    repeat split; try assumption; try reflexivity. lia.
Qed.

Lemma initialize_space_outcomes_witness :
  let sreg := space.mkSpaceRegistry 5 [] 0 in
  let ireg := identity.mkIdentityRegistry 0 (table.mkTable 1 []) 0 0 in
  space.initialize_space sreg ireg "n" "d" "c" "q" 100
                         (coin.mkCoin 60 99999999) (mkClock 900) (tx_of 7 40)
  = Fail (Abort m_space space.EInsufficientPayment)
  /\ exists res st',
       space.initialize_space sreg ireg "n" "d" "c" "q" 100
                              (coin.mkCoin 60 100000005) (mkClock 900)
                              (tx_of 7 40) = Ok (res, st') /\
       coin.value (space.fee res) + coin.value (space.change res)
       = 100000005.
Proof.
  cbv zeta. split.
  - apply (initialize_space_outcomes (space.mkSpaceRegistry 5 [] 0)
             (identity.mkIdentityRegistry 0 (table.mkTable 1 []) 0 0)
             "n" "d" "c" "q" 100 (coin.mkCoin 60 99999999) (mkClock 900)
             (tx_of 7 40)).
    reflexivity.
  - destruct (initialize_space_outcomes (space.mkSpaceRegistry 5 [] 0)
                (identity.mkIdentityRegistry 0 (table.mkTable 1 []) 0 0)
                "n" "d" "c" "q" 100 (coin.mkCoin 60 100000005) (mkClock 900)
                (tx_of 7 40)) as [_ Hok].
    destruct Hok as (res & st' & H & _ & Hsum & _);
      try reflexivity; try (vm_compute; discriminate).
    exists res, st'. split; [exact H | exact Hsum].
Defined.

Lemma mint_identity_counters r u b a i clk st idn r' st' :
  identity.mint_identity r u b a i clk st = Ok ((idn, r'), st') ->
  identity.total_identities r' = identity.total_identities r + 1 /\
  identity.total_creators r' = identity.total_creators r.
Proof.
  unfold identity.mint_identity. tx_unfold. unfold table.add. tx_unfold. cbn.
  destruct (table.contains _ _); cbn; [discriminate|].
  destruct (is_empty i); cbn; [discriminate|].
  destruct (_ <=? MAX_U64); cbn; [|discriminate].
  intros [= <- <- <-]. cbn. auto.
Qed.

(** X6. The counters of the two registries are exact in every state
    reached from the two [init]s through [mint_identity] and
    [initialize_space]: [total_identities] is the number of entries of the
    identity table, [total_spaces] is the length of the list of space ids,
    and [total_creators] equals [total_spaces], since every
    [initialize_space] that goes through adds one to it whether or not the
    sender has created a space before. *)
Theorem platform_counters_exact :
  forall sreg ireg,
    platform_reachable sreg ireg ->
    identity.total_identities ireg
    = N.of_nat (List.length (table.entries (identity.identities ireg))) /\
    space.total_spaces sreg = N.of_nat (List.length (space.spaces sreg)) /\
    identity.total_creators ireg = space.total_spaces sreg.
Proof.
  intros sreg ireg H.
  induction H as [st1 sreg fans st1' st2 ireg st2' Hs Hi
                 | sreg ireg u b a i clk st idn ireg' st' _ IH Hm
                 | sreg ireg n d c q p pay clk st res st' _ IH Hs].
  - unfold space.init, table.new in Hs. unfold identity.init, table.new in Hi.
    tx_unfold. cbn in Hs, Hi.
    injection Hs as <- _ _. injection Hi as <- _. cbn. auto.
  - destruct IH as (Hid & Hsp & Hcr).
    pose proof (mint_identity_counters _ _ _ _ _ _ _ _ _ _ Hm) as [Ht Hc].
    apply mint_identity_inv in Hm as (_ & _ & _ & Hids).
    rewrite Ht, Hc, Hids, Hid. cbn [table.entries].
    rewrite length_app. cbn [List.length]. repeat split; try assumption. lia.
  - destruct IH as (Hid & Hsp & Hcr).
    apply initialize_space_inv in Hs as (_ & _ & _ & (-> & ->) & _).
    cbn [identity.total_identities identity.identities
         identity.total_creators space.total_spaces space.spaces].
    rewrite length_app. cbn [List.length]. repeat split; try assumption; lia.
Qed.

Lemma platform_counters_exact_witness :
  exists sreg fans st1 ireg st2 res st3,
    space.init (tx_of 0 1) = Ok ((sreg, fans), st1) /\
    identity.init (tx_of 0 2) = Ok (ireg, st2) /\
    space.initialize_space sreg ireg "n" "d" "c" "q" 100
                           (coin.mkCoin 60 100000000) (mkClock 900)
                           (tx_of 7 40) = Ok (res, st3) /\
    identity.total_creators (space.identity_registry_after res)
    = space.total_spaces (space.registry_after res) /\
    space.total_spaces (space.registry_after res)
    = N.of_nat (List.length (space.spaces (space.registry_after res))).
Proof.
  destruct (space.init (tx_of 0 1)) as [[[sreg fans] st1]|f] eqn:E1;
    [|vm_compute in E1; discriminate E1].
  destruct (identity.init (tx_of 0 2)) as [[ireg st2]|f] eqn:E2;
    [|vm_compute in E2; discriminate E2].
  destruct (space.initialize_space sreg ireg "n" "d" "c" "q" 100
              (coin.mkCoin 60 100000000) (mkClock 900) (tx_of 7 40))
    as [[res st3]|f] eqn:E3.
  - exists sreg, fans, st1, ireg, st2, res, st3.
    split; [reflexivity|]. split; [reflexivity|]. split; [exact E3|].
    destruct (platform_counters_exact _ _
                (platform_initialize_space _ _ _ _ _ _ _ _ _ _ _ _
                   (platform_init _ _ _ _ _ _ _ E1 E2) E3))
      as (_ & Hs & Hc).
    split; [exact Hc | exact Hs].
  - vm_compute in E1. injection E1 as <- _ _.
    vm_compute in E2. injection E2 as <- _.
    vm_compute in E3. discriminate E3.
Defined.

Lemma update_space_config_inv sp own nn nd nc nq np clk st sp' st' :
  space.update_space_config sp own nn nd nc nq np clk st = Ok (sp', st') ->
  space.space_id own = space.uid sp /\
  sp' = space.mkSpace (space.uid sp)
          (space.or_keep nn (space.name sp))
          (space.or_keep nd (space.description sp))
          (space.or_keep nc (space.cover_image sp))
          (space.or_keep nq (space.config_quilt sp))
          (space.video_blob_ids sp)
          (space.or_keep np (space.subscription_price sp))
          (space.creator sp) (space.marketplace_kiosk_id sp)
          (space.created_at sp) (timestamp_ms clk) /\
  events st'
  = events st
      ++ [SpaceConfigUpdated (space.uid sp) (space.creator sp)
            (space.or_keep nq (space.config_quilt sp)) (timestamp_ms clk)].
Proof.
  unfold space.update_space_config. tx_unfold. cbn.
  destruct (N.eqb_spec (space.space_id own) (space.uid sp)); cbn;
    [|discriminate].
  intros [= <- <-]. auto.
Qed.

Lemma add_video_inv sp own v clk st sp' st' :
  space.add_video sp own v clk st = Ok (sp', st') ->
  space.space_id own = space.uid sp /\ st' = st /\
  sp' = space.mkSpace (space.uid sp) (space.name sp) (space.description sp)
          (space.cover_image sp) (space.config_quilt sp)
          (space.video_blob_ids sp ++ [v]) (space.subscription_price sp)
          (space.creator sp) (space.marketplace_kiosk_id sp)
          (space.created_at sp) (timestamp_ms clk).
Proof.
  unfold space.add_video. tx_unfold. cbn.
  destruct (N.eqb_spec (space.space_id own) (space.uid sp)); cbn;
    [|discriminate].
  intros [= <- <-]. auto.
Qed.

Lemma space_evolves_fixed sp0 sp :
  space_evolves sp0 sp ->
  space.uid sp = space.uid sp0 /\
  space.creator sp = space.creator sp0 /\
  space.marketplace_kiosk_id sp = space.marketplace_kiosk_id sp0 /\
  space.created_at sp = space.created_at sp0 /\
  exists later,
    space.video_blob_ids sp = space.video_blob_ids sp0 ++ later.
Proof.
  induction 1 as [| sp own nn nd nc nq np clk st sp' st' _ IH Hu
                  | sp own v clk st sp' st' _ IH Ha].
  - repeat split. exists []. now rewrite app_nil_r.
  - apply update_space_config_inv in Hu as (_ & -> & _). cbn. exact IH.
  - apply add_video_inv in Ha as (_ & _ & ->). cbn.
    destruct IH as (Hu & Hc & Hk & Ht & later & Hv).
    repeat split; try assumption.
    exists (later ++ [v]). now rewrite Hv, app_assoc.
Qed.

(** X7. However a space is changed by [update_space_config] and
    [add_video], its id, creator, marketplace kiosk and creation time stay
    what they were, and its video list only grows at the end: the videos it
    had are still there, in the same order, as a prefix. *)
Theorem space_evolution_invariant :
  forall sp0 sp,
    space_evolves sp0 sp ->
    space.uid sp = space.uid sp0 /\
    space.creator sp = space.creator sp0 /\
    space.marketplace_kiosk_id sp = space.marketplace_kiosk_id sp0 /\
    space.created_at sp = space.created_at sp0 /\
    firstn (List.length (space.video_blob_ids sp0)) (space.video_blob_ids sp)
    = space.video_blob_ids sp0 /\
    (List.length (space.video_blob_ids sp0)
     <= List.length (space.video_blob_ids sp))%nat.
Proof.
  intros sp0 sp H.
  destruct (space_evolves_fixed sp0 sp H)
    as (Hu & Hc & Hk & Ht & later & Hv).
  repeat split; try assumption.
  - rewrite Hv. clear. induction (space.video_blob_ids sp0) as [|v l IH];
      [reflexivity | cbn [List.length firstn app]; now rewrite IH].
  - rewrite Hv, length_app. lia.
Qed.

Lemma space_evolution_invariant_witness :
  exists sp1 st1 sp2 st2,
    space.add_video sample_space (space.mkSpaceOwnership 41 10) "v1"
                    (mkClock 5) (tx_of 7 42) = Ok (sp1, st1) /\
    space.update_space_config sp1 (space.mkSpaceOwnership 41 10)
                              (Some "renamed"%string) None None None
                              (Some 250) (mkClock 6) (tx_of 9 43)
    = Ok (sp2, st2) /\
    space.uid sp2 = 10 /\ space.creator sp2 = 7 /\
    space.video_blob_ids sp2 = ["v1"%string].
Proof.
  destruct (space.add_video sample_space (space.mkSpaceOwnership 41 10) "v1"
                            (mkClock 5) (tx_of 7 42))
    as [[sp1 st1]|f] eqn:E1; [|vm_compute in E1; discriminate E1].
  destruct (space.update_space_config sp1 (space.mkSpaceOwnership 41 10)
              (Some "renamed"%string) None None None (Some 250) (mkClock 6)
              (tx_of 9 43)) as [[sp2 st2]|f] eqn:E2.
  - exists sp1, st1, sp2, st2. split; [reflexivity|]. split; [exact E2|].
    destruct (space_evolution_invariant sample_space sp2)
      as (Hu & Hc & _).
    { eapply evolves_update; [|exact E2].
      eapply evolves_add_video; [apply evolves_start | exact E1]. }
    split; [exact Hu|]. split; [exact Hc|].
    vm_compute in E1. injection E1 as <- _.
    vm_compute in E2. now injection E2 as <- _.
  - vm_compute in E1. injection E1 as <- _.
    vm_compute in E2. discriminate E2.
Defined.

(** X8. The capability that [initialize_space] hands out keeps working:
    for the space it shared, however that space has since been changed by
    [update_space_config] and [add_video], and whoever the sender is, the
    owner-path gate check passes and both mutators go through with it;
    against a space with another id the gate check aborts with
    [ENotOwner]. *)
Theorem initialize_space_capability_lasts :
  forall sreg ireg name description cover quilt price payment clock st
         res st',
    space.initialize_space sreg ireg name description cover quilt price
                           payment clock st = Ok (res, st') ->
    forall sp,
      space_evolves (space.shared_space res) sp ->
      forall (id : list N) st2,
        seal_approve_as_creator id sp (space.ownership res) st2
        = Ok (tt, st2) /\
        (forall nn nd nc nq np clock2,
           exists sp' st3,
             space.update_space_config sp (space.ownership res) nn nd nc nq
                                       np clock2 st2 = Ok (sp', st3)) /\
        (forall video clock2,
           exists sp',
             space.add_video sp (space.ownership res) video clock2 st2
             = Ok (sp', st2)) /\
        (forall other,
           space.uid other <> space.uid (space.shared_space res) ->
           seal_approve_as_creator id other (space.ownership res) st2
           = Fail (Abort m_subscription ENotOwner)).
Proof.
  intros sreg ireg name description cover quilt price payment clock st
         res st' H sp Hev id st2.
  apply initialize_space_inv in H as (_ & (Hown & _) & _).
  apply space_evolves_fixed in Hev as (Hu & _).
  assert (E : (space.space_id (space.ownership res) =? space.uid sp) = true)
    by (apply N.eqb_eq; congruence).
  unfold seal_approve_as_creator, space.update_space_config,
    space.add_video, space.get_space_ownership_space_id.
  tx_unfold. rewrite E.
  split; [reflexivity|]. split; [|split].
  - intros. eexists _, _. reflexivity.
  - intros. eexists. reflexivity.
  - intros other Hne.
    assert (E' : (space.space_id (space.ownership res) =? space.uid other)
                 = false) by (apply N.eqb_neq; congruence).
    now rewrite E'.
Qed.

Lemma initialize_space_capability_lasts_witness :
  exists res st' sp1 st1,
    space.initialize_space (space.mkSpaceRegistry 5 [] 0)
      (identity.mkIdentityRegistry 0 (table.mkTable 1 []) 0 0)
      "n" "d" "c" "q" 100 (coin.mkCoin 60 100000000) (mkClock 900)
      (tx_of 7 40) = Ok (res, st') /\
    space.add_video (space.shared_space res) (space.ownership res) "v1"
                    (mkClock 950) (tx_of 7 41) = Ok (sp1, st1) /\
    seal_approve_as_creator [] sp1 (space.ownership res) (tx_of 9 42)
    = Ok (tt, tx_of 9 42).
Proof.
  destruct (space.initialize_space (space.mkSpaceRegistry 5 [] 0)
              (identity.mkIdentityRegistry 0 (table.mkTable 1 []) 0 0)
              "n" "d" "c" "q" 100 (coin.mkCoin 60 100000000) (mkClock 900)
              (tx_of 7 40))
    as [[res st']|f] eqn:E; [|vm_compute in E; discriminate E].
  destruct (initialize_space_capability_lasts _ _ _ _ _ _ _ _ _ _ _ _ E
              (space.shared_space res) (evolves_start _) [] (tx_of 7 41))
    as (_ & _ & Hvid & _).
  destruct (Hvid "v1"%string (mkClock 950)) as [sp1 E1].
  exists res, st', sp1, (tx_of 7 41).
  split; [reflexivity|]. split; [exact E1|].
  apply (initialize_space_capability_lasts _ _ _ _ _ _ _ _ _ _ _ _ E sp1).
  eapply evolves_add_video; [apply evolves_start | exact E1].
Defined.

Lemma subscribe_result reg fans sp idn pay d clk st res st' :
  subscription.subscribe reg fans sp idn pay d clk st = Ok (res, st') ->
  subscription.new_subscription res
  = subscription.mkSubscription
      (derive_id (tx_hash (ctx st)) (ids_created (ctx st) + 1))
      (space.uid sp) (tx_sender (ctx st)) (timestamp_ms clk)
      (timestamp_ms clk + d * subscription.ONE_DAY_MS) d /\
  coin.value (subscription.payment_amount res)
  = space.subscription_price sp * d /\
  subscription.change res
  = coin.mkCoin (coin.uid pay)
                (coin.value pay - space.subscription_price sp * d) /\
  subscription.total_subscriptions (subscription.registry_after res)
  = subscription.total_subscriptions reg + 1 /\
  subscription.active_subscriptions (subscription.registry_after res)
  = subscription.active_subscriptions reg + 1.
Proof.
  intros H.
  pose proof (subscribe_inv _ _ _ _ _ _ _ _ _ _ H) as Hpre.
  destruct (subscribe_ok reg fans sp idn pay d clk st Hpre)
    as (res0 & st0 & H0 & Hsub & Hpaid & Hch & Ht & Ha & _).
  rewrite H in H0. injection H0 as <- <-. auto.
Qed.

(** X9. [update_space_config] changes exactly the fields it is given:
    each of name, description, cover image, config quilt and price takes
    the new value when one is passed and keeps the old one otherwise, the
    update time becomes the clock's, and id, creator, videos, kiosk and
    creation time are untouched. A new price is the one charged from then
    on: a [subscribe] or [renew_subscription] that goes through against
    the updated space splits off [new price * days]. *)
Theorem update_space_config_effect :
  forall sp own nn nd nc nq np clock st sp' st',
    space.update_space_config sp own nn nd nc nq np clock st
    = Ok (sp', st') ->
    space.name sp' = match nn with Some v => v | None => space.name sp end /\
    space.description sp'
    = match nd with Some v => v | None => space.description sp end /\
    space.cover_image sp'
    = match nc with Some v => v | None => space.cover_image sp end /\
    space.config_quilt sp'
    = match nq with Some v => v | None => space.config_quilt sp end /\
    space.subscription_price sp'
    = match np with Some v => v | None => space.subscription_price sp end /\
    space.updated_at sp' = timestamp_ms clock /\
    space.video_blob_ids sp' = space.video_blob_ids sp /\
    (forall reg fans idn pay d clock2 st2 res st3,
       subscribe reg fans sp' idn pay d clock2 st2 = Ok (res, st3) ->
       coin.value (payment_amount res)
       = match np with Some v => v | None => space.subscription_price sp end
         * d) /\
    (forall reg sub pay d clock2 st2 res st3,
       renew_subscription reg sub pay sp' d clock2 st2 = Ok (res, st3) ->
       coin.value (renewal_payment res)
       = match np with Some v => v | None => space.subscription_price sp end
         * d).
Proof.
  intros sp own nn nd nc nq np clock st sp' st' H.
  apply update_space_config_inv in H as (_ & -> & _).
  cbn [space.name space.description space.cover_image space.config_quilt
       space.subscription_price space.updated_at space.video_blob_ids].
  unfold space.or_keep.
  repeat split.
  - intros reg fans idn pay d clock2 st2 res st3 Hs.
    apply subscribe_result in Hs as (_ & -> & _). reflexivity.
  - intros reg sub pay d clock2 st2 res st3 Hr.
    pose proof (renew_subscription_inv _ _ _ _ _ _ _ _ _ Hr) as Hpre.
    destruct (renew_subscription_ok reg sub pay _ d clock2 st2 Hpre)
      as (st4 & Hr' & _).
    rewrite Hr in Hr'. injection Hr' as -> _. reflexivity.
Qed.

Lemma update_space_config_effect_witness :
  exists sp' st' res st3,
    space.update_space_config sample_space (space.mkSpaceOwnership 41 10)
                              None None None None (Some 250) (mkClock 6)
                              (tx_of 7 43) = Ok (sp', st') /\
    space.name sp' = "gallery"%string /\
    subscribe empty_registry empty_fans sp' fan_identity
              (coin.mkCoin 60 1000) 2 (mkClock 1000) (tx_of 5 70)
    = Ok (res, st3) /\
    coin.value (payment_amount res) = 250 * 2.
Proof.
  destruct (space.update_space_config sample_space
              (space.mkSpaceOwnership 41 10) None None None None (Some 250)
              (mkClock 6) (tx_of 7 43))
    as [[sp' st']|f] eqn:E; [|vm_compute in E; discriminate E].
  destruct (subscribe empty_registry empty_fans sp' fan_identity
              (coin.mkCoin 60 1000) 2 (mkClock 1000) (tx_of 5 70))
    as [[res st3]|f] eqn:E2.
  - exists sp', st', res, st3.
    destruct (update_space_config_effect _ _ _ _ _ _ _ _ _ _ _ E)
      as (Hn & _ & _ & _ & _ & _ & _ & Hsub & _).
    split; [reflexivity|]. split; [exact Hn|]. split; [exact E2|].
    exact (Hsub _ _ _ _ _ _ _ _ _ E2).
  - vm_compute in E. injection E as <- _.
    vm_compute in E2. discriminate E2.
Defined.

(** ** The fan registry *)

Lemma lookup_erase_other {V} (l : list (N * V)) k k' :
  k <> k' -> table.lookup k (table.erase k' l) = table.lookup k l.
Proof.
  intros Hne. induction l as [|[k0 v0] l IH]; cbn; [reflexivity|].
  destruct (N.eqb_spec k' k0) as [->|Hk0]; cbn.
  - destruct (N.eqb_spec k k0); [contradiction | exact IH].
  - destruct (k =? k0); [reflexivity | exact IH].
Qed.

(** X10. [add_fan_avatar] never aborts and overwrites: afterwards the fan
    registry holds, for that fan of that space, the avatar just given,
    whatever it held before; what it holds for every other fan and every
    other space is unchanged; one [FanAvatarAdded] event is emitted. *)
Theorem add_fan_avatar_overwrites :
  forall fans sp fan avatar st,
    exists fans' st',
      space.add_fan_avatar fans sp fan avatar st = Ok (fans', st') /\
      fan_avatar_of fans' (space.uid sp) fan
      = Some (space.mkFanAvatar fan avatar) /\
      (forall s f,
         s <> space.uid sp \/ f <> fan ->
         fan_avatar_of fans' s f = fan_avatar_of fans s f) /\
      events st'
      = events st ++ [FanAvatarAdded (space.uid sp) fan avatar] /\
      tx_sender (ctx st') = tx_sender (ctx st).
Proof.
  intros fans sp fan avatar st.
  unfold space.add_fan_avatar, fan_avatar_of, table.borrow, table.new,
    table.remove.
  tx_unfold.
  destruct (table.contains (space.fans fans) (space.uid sp)) eqn:C; cbn.
  - apply contains_true in C as [inner L]. rewrite L. cbn.
    destruct (table.contains inner fan) eqn:Cf; cbn.
    + apply contains_true in Cf as [old Lf]. rewrite Lf. cbn.
      unfold table.add, table.contains. cbn. rewrite lookup_erase. cbn.
      eexists _, _. split; [reflexivity|]. cbn.
      rewrite lookup_replace, N.eqb_refl, L. cbn.
      split; [now rewrite lookup_app_last, lookup_erase, N.eqb_refl|].
      split; [|split; reflexivity].
      intros s f Hsf. rewrite lookup_replace.
      destruct (N.eqb_spec s (space.uid sp)) as [->|Hs]; [|reflexivity].
      rewrite L. cbn. rewrite lookup_app_last.
      destruct Hsf as [Hs|Hf]; [contradiction|].
      rewrite (lookup_erase_other _ _ _ Hf).
      apply N.eqb_neq in Hf. rewrite Hf.
      now destruct (table.lookup f (table.entries inner)).
    + rewrite (add_ok _ _ _ _ Cf). apply contains_false in Cf as Lf.
      eexists _, _. split; [reflexivity|]. cbn.
      rewrite lookup_replace, N.eqb_refl, L. cbn.
      split; [now rewrite lookup_app_last, Lf, N.eqb_refl|].
      split; [|split; reflexivity].
      intros s f Hsf. rewrite lookup_replace.
      destruct (N.eqb_spec s (space.uid sp)) as [->|Hs]; [|reflexivity].
      rewrite L. cbn. rewrite lookup_app_last.
      destruct Hsf as [Hs|Hf]; [contradiction|].
      apply N.eqb_neq in Hf. rewrite Hf.
      now destruct (table.lookup f (table.entries inner)).
  - rewrite (add_ok _ _ _ _ C). apply contains_false in C as L. cbn.
    rewrite lookup_app_last, L, N.eqb_refl. cbn.
    eexists _, _. split; [reflexivity|]. cbn.
    rewrite lookup_replace, N.eqb_refl, lookup_app_last, L, N.eqb_refl.
    cbn. rewrite N.eqb_refl.
    split; [reflexivity|]. split; [|split; reflexivity].
    intros s f Hsf. rewrite lookup_replace, lookup_app_last.
    destruct (N.eqb_spec s (space.uid sp)) as [->|Hs].
    + rewrite L. cbn. destruct Hsf as [Hs|Hf]; [contradiction|].
      apply N.eqb_neq in Hf. now rewrite Hf.
    + now destruct (table.lookup s (table.entries (space.fans fans))).
Qed.

Lemma add_fan_avatar_overwrites_witness :
  exists fans1 st1 fans2 st2,
    space.add_fan_avatar empty_fans sample_space 5 "old" (tx_of 5 70)
    = Ok (fans1, st1) /\
    space.add_fan_avatar fans1 sample_space 5 "new" (tx_of 5 71)
    = Ok (fans2, st2) /\
    fan_avatar_of fans2 10 5 = Some (space.mkFanAvatar 5 "new") /\
    fan_avatar_of fans2 10 6 = fan_avatar_of fans1 10 6.
Proof.
  destruct (add_fan_avatar_overwrites empty_fans sample_space 5 "old"%string
              (tx_of 5 70)) as (fans1 & st1 & H1 & _).
  destruct (add_fan_avatar_overwrites fans1 sample_space 5 "new"%string
              (tx_of 5 71)) as (fans2 & st2 & H2 & Hnew & Hframe & _).
  exists fans1, st1, fans2, st2.
  split; [exact H1|]. split; [exact H2|]. split; [exact Hnew|].
  apply Hframe. right. vm_compute. discriminate.
Defined.

(** ** The subscription index *)

Lemma register_spec subs sid who x st subs' st' :
  subscription.register subs sid who x st = Ok (subs', st') ->
  indexed_id subs' who sid = Some x /\
  (forall a s,
     s <> sid \/ a <> who -> indexed_id subs' a s = indexed_id subs a s) /\
  events st' = events st /\
  tx_sender (ctx st') = tx_sender (ctx st).
Proof.
  unfold subscription.register, indexed_id, table.borrow, table.new.
  tx_unfold.
  destruct (table.contains subs sid) eqn:C; cbn.
  - apply contains_true in C as [inner L]. rewrite L. cbn.
    unfold table.add. destruct (table.contains inner who) eqn:Cw;
      [discriminate|].
    tx_unfold. intros [= <- <-]. cbn. apply contains_false in Cw.
    rewrite lookup_replace, N.eqb_refl, L. cbn.
    split; [now rewrite lookup_app_last, Cw, N.eqb_refl|].
    split; [|split; reflexivity].
    intros a s Hsa. rewrite lookup_replace.
    destruct (N.eqb_spec s sid) as [->|Hs]; [|reflexivity].
    rewrite L. cbn. rewrite lookup_app_last.
    destruct Hsa as [Hs|Ha]; [contradiction|].
    apply N.eqb_neq in Ha. rewrite Ha.
    now destruct (table.lookup a (table.entries inner)).
  - rewrite (add_ok _ _ _ _ C). apply contains_false in C as L. cbn.
    rewrite lookup_app_last, L, N.eqb_refl. cbn.
    intros [= <- <-]. cbn.
    rewrite lookup_replace, N.eqb_refl, lookup_app_last, L, N.eqb_refl.
    cbn. rewrite N.eqb_refl.
    split; [reflexivity|]. split; [|split; reflexivity].
    intros a s Hsa. rewrite lookup_replace, lookup_app_last.
    destruct (N.eqb_spec s sid) as [->|Hs].
    + rewrite L. cbn. destruct Hsa as [Hs|Ha]; [contradiction|].
      apply N.eqb_neq in Ha. now rewrite Ha.
    + now destruct (table.lookup s (table.entries subs)).
Qed.

Lemma subscribe_parts reg fans sp idn pay d clk st res st' :
  subscription.subscribe reg fans sp idn pay d clk st = Ok (res, st') ->
  exists avatar s1 s1' s2 s2',
    identity.avatar_blob_id idn = Some avatar /\
    subscription.register (subscription.subscriptions reg) (space.uid sp)
      (tx_sender (ctx st))
      (subscription.uid (subscription.new_subscription res)) s1
    = Ok (subscription.subscriptions (subscription.registry_after res), s1')
    /\ events s1 = events st /\
    space.add_fan_avatar fans sp (tx_sender (ctx st)) avatar s2
    = Ok (subscription.fan_registry_after res, s2') /\
    events s2 = events s1' /\
    events st'
    = events s2'
        ++ [SubscriptionCreated
              (subscription.uid (subscription.new_subscription res))
              (space.uid sp) (tx_sender (ctx st))
              (subscription.expires_at (subscription.new_subscription res))
              (space.subscription_price sp * d)].
Proof.
  unfold subscription.subscribe, coin.split. tx_unfold. cbn.
  destruct (identity.owner idn =? tx_sender (ctx st)); cbn; [|discriminate].
  destruct (identity.avatar_blob_id idn) as [avatar|] eqn:Ha; cbn;
    [|discriminate].
  destruct (subscription.is_subscribed_internal _ _ _); cbn; [discriminate|].
  destruct (_ <=? MAX_U64); cbn; [|discriminate].
  destruct (_ <=? coin.value pay); cbn; [|discriminate].
  destruct (_ <=? MAX_U64); cbn; [|discriminate].
  destruct (_ <=? MAX_U64); cbn; [|discriminate].
  destruct (subscription.register _ _ _ _ _) as [[subs' s1']|] eqn:R;
    [|discriminate].
  destruct (_ <=? MAX_U64); cbn; [|discriminate].
  destruct (_ <=? MAX_U64); cbn; [|discriminate].
  destruct (space.add_fan_avatar _ _ _ _ _) as [[fans' s2']|] eqn:F;
    [|discriminate].
  intros [= <- <-]. cbn.
  eexists avatar, _, s1', _, s2'.
  split; [reflexivity|]. split; [exact R|]. split; [reflexivity|].
  split; [exact F|]. split; reflexivity.
Qed.

(** X11. A [subscribe] that goes through leaves both registries telling
    the same story: the index maps the space and the sender to the id of
    the subscription handed back, the fan registry holds the sender's
    avatar (the one bound to the identity) for that space, every other
    (space, address) pair reads in both as it did before, and exactly two
    events are emitted, [FanAvatarAdded] and then [SubscriptionCreated]
    with the expiry and the amount paid. *)
Theorem subscribe_records :
  forall reg fans sp idn pay d clock st res st',
    subscribe reg fans sp idn pay d clock st = Ok (res, st') ->
    indexed_id (subscriptions (registry_after res)) (tx_sender (ctx st))
               (space.uid sp)
    = Some (uid (new_subscription res)) /\
    (exists avatar,
       identity.avatar_blob_id idn = Some avatar /\
       fan_avatar_of (fan_registry_after res) (space.uid sp)
                     (tx_sender (ctx st))
       = Some (space.mkFanAvatar (tx_sender (ctx st)) avatar) /\
       events st'
       = events st
           ++ [FanAvatarAdded (space.uid sp) (tx_sender (ctx st)) avatar;
               SubscriptionCreated
                 (uid (new_subscription res)) (space.uid sp)
                 (tx_sender (ctx st))
                 (timestamp_ms clock + d * ONE_DAY_MS)
                 (space.subscription_price sp * d)]) /\
    (forall a s,
       s <> space.uid sp \/ a <> tx_sender (ctx st) ->
       indexed_id (subscriptions (registry_after res)) a s
       = indexed_id (subscriptions reg) a s /\
       fan_avatar_of (fan_registry_after res) s a = fan_avatar_of fans s a).
Proof.
  intros reg fans sp idn pay d clock st res st' H.
  destruct (subscribe_parts _ _ _ _ _ _ _ _ _ _ H)
    as (avatar & s1 & s1' & s2 & s2' & Ha & R & E1 & F & E2 & E3).
  apply subscribe_result in H as (Hsub & _).
  apply register_spec in R as (Hid & Hidf & Er & _).
  destruct (add_fan_avatar_overwrites fans sp (tx_sender (ctx st)) avatar s2)
    as (fans' & s2'' & F' & Hfan & Hfanf & Ef & _).
  rewrite F in F'. injection F' as <- <-.
  split; [exact Hid|]. split.
  - exists avatar. split; [exact Ha|]. split; [exact Hfan|].
    rewrite E3, Ef, E2, Er, E1, <- app_assoc, Hsub. reflexivity.
  - intros a s Hsa. split; [apply Hidf, Hsa | apply Hfanf, Hsa].
Qed.

Lemma subscribe_records_witness :
  exists res st',
    subscribe empty_registry empty_fans sample_space fan_identity
              (coin.mkCoin 60 500) 5 (mkClock 1000) (tx_of 5 70)
    = Ok (res, st') /\
    indexed_id (subscriptions (registry_after res)) 5 10
    = Some (uid (new_subscription res)) /\
    indexed_id (subscriptions (registry_after res)) 6 10 = None.
Proof.
  destruct (subscribe empty_registry empty_fans sample_space fan_identity
              (coin.mkCoin 60 500) 5 (mkClock 1000) (tx_of 5 70))
    as [[res st']|f] eqn:E; [|vm_compute in E; discriminate E].
  exists res, st'. split; [reflexivity|].
  destruct (subscribe_records _ _ _ _ _ _ _ _ _ _ E) as (Hme & _ & Hother).
  split; [exact Hme|].
  destruct (Hother 6 10) as [-> _]; [|reflexivity].
  right. vm_compute. discriminate.
Defined.

(** ** Creator subscriptions *)

Lemma create_creator_subscription_inv reg sp creator clk st sub reg' st' :
  subscription.create_creator_subscription reg sp creator clk st
  = Ok ((sub, reg'), st') ->
  subscription.is_subscribed_internal reg creator (space.uid sp) = false /\
  sub = subscription.mkSubscription
          (derive_id (tx_hash (ctx st)) (ids_created (ctx st)))
          (space.uid sp) creator (timestamp_ms clk) MAX_U64 0 /\
  subscription.total_subscriptions reg'
  = subscription.total_subscriptions reg + 1 /\
  subscription.active_subscriptions reg'
  = subscription.active_subscriptions reg + 1 /\
  indexed_id (subscription.subscriptions reg') creator (space.uid sp)
  = Some (subscription.uid sub) /\
  events st'
  = events st
      ++ [SubscriptionCreated (subscription.uid sub) (space.uid sp) creator
                              MAX_U64 0].
Proof.
  unfold subscription.create_creator_subscription. tx_unfold. cbn.
  destruct (subscription.register _ _ _ _ _) as [[subs' s1]|] eqn:R;
    [|discriminate].
  pose proof (register_inv _ _ _ _ _ _ _ R) as Hn.
  apply register_spec in R as (Hid & _ & Er & _).
  destruct (N.leb_spec (subscription.total_subscriptions reg + 1) MAX_U64);
    cbn; [|discriminate].
  destruct (N.leb_spec (subscription.active_subscriptions reg + 1) MAX_U64);
    cbn; [|discriminate].
  intros [= <- <- <-]. cbn. rewrite is_subscribed_internal_indexed.
  repeat split; try assumption. now rewrite Er.
Qed.

Lemma create_creator_subscription_ok reg sp creator clk st :
  subscription.is_subscribed_internal reg creator (space.uid sp) = false ->
  subscription.total_subscriptions reg < MAX_U64 ->
  subscription.active_subscriptions reg < MAX_U64 ->
  exists sub reg' st',
    subscription.create_creator_subscription reg sp creator clk st
    = Ok ((sub, reg'), st').
Proof.
  intros Hn Ht Ha. rewrite is_subscribed_internal_indexed in Hn.
  unfold subscription.create_creator_subscription. tx_unfold. cbn.
  match goal with
  | |- context [subscription.register ?a ?b ?c ?x ?s] =>
      destruct (register_ok a b c x s Hn) as (subs' & s1 & Hr & _);
      rewrite Hr
  end.
  assert (H1 : (subscription.total_subscriptions reg + 1 <=? MAX_U64) = true)
    by (apply N.leb_le; lia).
  assert (H2 : (subscription.active_subscriptions reg + 1 <=? MAX_U64)
               = true) by (apply N.leb_le; lia).
  rewrite H1. cbn. rewrite H2. cbn. eauto.
Qed.

(** X12. [create_creator_subscription] looks neither at the sender nor at
    any payment. For a pair that is already in the index it aborts, with
    the table's [EFieldAlreadyExists], not with a code of the module. For
    a pair that is not, and with room in the counters, it goes through for
    any sender: the subscription is for the space and the address given,
    expires at [MAX_U64], has [duration_days = 0], and is entered in the
    index under its id; both counters grow by one and the event reports
    nothing paid. *)
Theorem create_creator_subscription_outcomes :
  forall reg sp creator clock st,
    (is_subscribed_internal reg creator (space.uid sp) = true ->
     create_creator_subscription reg sp creator clock st
     = Fail (Abort m_dynamic_field table.EFieldAlreadyExists)) /\
    (is_subscribed_internal reg creator (space.uid sp) = false ->
     total_subscriptions reg < MAX_U64 ->
     active_subscriptions reg < MAX_U64 ->
     exists sub reg' st',
       create_creator_subscription reg sp creator clock st
       = Ok ((sub, reg'), st') /\
       space_id sub = space.uid sp /\
       subscriber sub = creator /\
       subscribed_at sub = timestamp_ms clock /\
       expires_at sub = MAX_U64 /\
       duration_days sub = 0 /\
       total_subscriptions reg' = total_subscriptions reg + 1 /\
       active_subscriptions reg' = active_subscriptions reg + 1 /\
       indexed_id (subscriptions reg') creator (space.uid sp)
       = Some (uid sub) /\
       events st'
       = events st
           ++ [SubscriptionCreated (uid sub) (space.uid sp) creator
                                   MAX_U64 0]).
Proof.
  intros reg sp creator clock st. split.
  - intros Hin. unfold create_creator_subscription, register, table.borrow.
    tx_unfold. cbn.
    unfold is_subscribed_internal in Hin.
    destruct (table.contains (subscriptions reg) (space.uid sp)) eqn:C;
      [|discriminate Hin].
    cbn in Hin |- *.
    destruct (table.lookup (space.uid sp) (table.entries (subscriptions reg)))
      as [inner|]; [|discriminate Hin].
    cbn. unfold table.add. now rewrite Hin.
  - intros Hn Ht Ha.
    destruct (create_creator_subscription_ok reg sp creator clock st Hn Ht Ha)
      as (sub & reg' & st' & H).
    exists sub, reg', st'. split; [exact H|].
    apply create_creator_subscription_inv in H
      as (_ & Hsub & Htot & Hact & Hid & Hev).
    rewrite Hsub in *. cbn [space_id subscriber subscribed_at expires_at
                              duration_days uid] in *.
    repeat split; assumption.
Qed.

Lemma create_creator_subscription_outcomes_witness :
  create_creator_subscription creator_registry sample_space 7 (mkClock 2000)
                              (tx_of 9 55)
  = Fail (Abort m_dynamic_field table.EFieldAlreadyExists)
  /\ exists sub reg' st',
       create_creator_subscription creator_registry sample_space 8
                                   (mkClock 2000) (tx_of 9 55)
       = Ok ((sub, reg'), st') /\
       subscriber sub = 8 /\ expires_at sub = MAX_U64.
Proof.
  split.
  - apply (create_creator_subscription_outcomes creator_registry sample_space
             7 (mkClock 2000) (tx_of 9 55)).
    reflexivity.
  - destruct (create_creator_subscription_outcomes creator_registry
                sample_space 8 (mkClock 2000) (tx_of 9 55)) as [_ Hok].
    destruct Hok as (sub & reg' & st' & H & _ & Hs & _ & He & _);
      try reflexivity.
    exists sub, reg', st'. auto.
Defined.

(** X13. The subscription that [create_creator_subscription] hands out
    never expires: at every clock value that fits in a [u64],
    [is_expired] is false and the subscriber-path gate check passes for
    the address it was made for, against a space with the id it was made
    for. *)
Theorem creator_subscription_never_expires :
  forall reg sp creator clock st sub reg' st',
    create_creator_subscription reg sp creator clock st
    = Ok ((sub, reg'), st') ->
    forall later,
      timestamp_ms later <= MAX_U64 ->
      is_expired sub later = false /\
      (forall id sp' st2,
         space.uid sp' = space.uid sp ->
         tx_sender (ctx st2) = creator ->
         seal_approve_as_subscriber id sp' sub later st2 = Ok (tt, st2)).
Proof.
  intros reg sp creator clock st sub reg' st' H later Hl.
  apply create_creator_subscription_inv in H as (_ & -> & _).
  assert (He : (MAX_U64 <? timestamp_ms later) = false)
    by (apply N.ltb_ge; exact Hl).
  unfold is_expired. cbn [expires_at]. split; [exact He|].
  intros id sp' st2 Hsp Hs.
  unfold seal_approve_as_subscriber, is_expired. tx_unfold.
  cbn [subscriber space_id expires_at].
  rewrite Hs, Hsp, !N.eqb_refl, He. reflexivity.
Qed.

Lemma creator_subscription_never_expires_witness :
  seal_approve_as_subscriber [] sample_space creator_subscription
                             (mkClock MAX_U64) (tx_of 7 56)
  = Ok (tt, tx_of 7 56).
Proof.
  destruct (creator_subscription_never_expires empty_registry sample_space 7
              (mkClock 1000) (tx_of 7 50) creator_subscription
              creator_registry _ creator_subscription_created
              (mkClock MAX_U64)) as [_ Hgate].
  - vm_compute. discriminate.
  - apply Hgate; reflexivity.
Defined.

(** ** Counters, gates and renewals *)

(** X14. In every registry reached from [init], [total_subscriptions] and
    [active_subscriptions] are equal, and both are the number of
    [create_creator_subscription] and [subscribe] calls that went through:
    nothing ever takes one away from [active_subscriptions], neither an
    expiry nor a renewal. *)
Theorem subscription_counters_count_grants :
  forall h reg,
    subscription_history h reg ->
    total_subscriptions reg = N.of_nat (List.length h) /\
    active_subscriptions reg = total_subscriptions reg.
Proof.
  intros h reg H.
  induction H as [st r st' Hi
                 | h r sp creator clk st sub r' st' _ IH Hc
                 | h r fans sp idn pay d clk st res st' _ IH Hs
                 | h r sub pay sp d clk st res st' _ IH _].
  - unfold init, table.new in Hi. tx_unfold. cbn in Hi.
    injection Hi as <- _. cbn. auto.
  - apply create_creator_subscription_inv in Hc as (_ & _ & -> & -> & _).
    destruct IH as [-> ->]. cbn [List.length]. split; lia.
  - apply subscribe_result in Hs as (_ & _ & _ & -> & ->).
    destruct IH as [-> ->]. cbn [List.length]. split; lia.
  - exact IH.
Qed.

Lemma subscription_counters_count_grants_witness :
  exists res st',
    subscribe creator_registry empty_fans sample_space fan_identity
              (coin.mkCoin 60 500) 5 (mkClock 1000) (tx_of 5 70)
    = Ok (res, st') /\
    total_subscriptions (registry_after res) = 2 /\
    active_subscriptions (registry_after res) = 2.
Proof.
  destruct (subscribe creator_registry empty_fans sample_space fan_identity
              (coin.mkCoin 60 500) 5 (mkClock 1000) (tx_of 5 70))
    as [[res st']|f] eqn:E; [|vm_compute in E; discriminate E].
  exists res, st'. split; [reflexivity|].
  destruct (subscription_counters_count_grants
              [(10, 5); (10, 7)] (registry_after res)) as [Ht Ha].
  - apply (hist_subscribe [(10, 7)] creator_registry empty_fans sample_space
             fan_identity (coin.mkCoin 60 500) 5 (mkClock 1000) (tx_of 5 70)
             res st'); [|exact E].
    eapply (hist_creator [] empty_registry sample_space 7 (mkClock 1000)
              (tx_of 7 50) creator_subscription creator_registry);
      [|exact creator_subscription_created].
    apply (hist_init (mkTxState (mkTxContext 0 0 1) []) empty_registry
             (mkTxState (mkTxContext 0 0 3) [])).
    reflexivity.
  - split; [exact Ht | now rewrite Ha, Ht].
Defined.

(** X15. The subscription a [subscribe] hands back opens the
    subscriber-path gate for the sender and the space exactly until it
    runs out: the check passes at a clock value [t] if and only if
    [t <= now + duration_days * ONE_DAY_MS]. The bound is inclusive, so a
    subscription bought for 0 days passes at the very timestamp of its
    creation and at no later one. *)
Theorem subscribe_then_gate :
  forall reg fans sp idn pay d clock st res st',
    subscribe reg fans sp idn pay d clock st = Ok (res, st') ->
    forall id later st2,
      tx_sender (ctx st2) = tx_sender (ctx st) ->
      (seal_approve_as_subscriber id sp (new_subscription res) later st2
       = Ok (tt, st2)
       <-> timestamp_ms later <= timestamp_ms clock + d * ONE_DAY_MS) /\
      (timestamp_ms clock + d * ONE_DAY_MS < timestamp_ms later ->
       seal_approve_as_subscriber id sp (new_subscription res) later st2
       = Fail (Abort m_subscription ENotSubscriber)).
Proof.
  intros reg fans sp idn pay d clock st res st' H id later st2 Hs.
  apply subscribe_result in H as (-> & _).
  unfold seal_approve_as_subscriber, is_expired. tx_unfold.
  cbn [subscriber space_id expires_at].
  rewrite Hs, !N.eqb_refl.
  destruct (N.ltb_spec (timestamp_ms clock + d * ONE_DAY_MS)
                       (timestamp_ms later)) as [Hlt|Hge].
  - split; [split; [discriminate | lia] | reflexivity].
  - split; [split; [intros _; exact Hge | reflexivity] | lia].
Qed.

Lemma subscribe_then_gate_witness :
  exists res st',
    subscribe empty_registry empty_fans sample_space fan_identity
              (coin.mkCoin 60 0) 0 (mkClock 1000) (tx_of 5 70)
    = Ok (res, st') /\
    seal_approve_as_subscriber [] sample_space (new_subscription res)
                               (mkClock 1000) (tx_of 5 71)
    = Ok (tt, tx_of 5 71) /\
    seal_approve_as_subscriber [] sample_space (new_subscription res)
                               (mkClock 1001) (tx_of 5 71)
    = Fail (Abort m_subscription ENotSubscriber).
Proof.
  destruct (subscribe empty_registry empty_fans sample_space fan_identity
              (coin.mkCoin 60 0) 0 (mkClock 1000) (tx_of 5 70))
    as [[res st']|f] eqn:E; [|vm_compute in E; discriminate E].
  exists res, st'. split; [reflexivity|]. split.
  - destruct (subscribe_then_gate _ _ _ _ _ _ _ _ _ _ E [] (mkClock 1000)
                (tx_of 5 71) eq_refl) as [[_ Hpass] _].
    apply Hpass. vm_compute. discriminate.
  - destruct (subscribe_then_gate _ _ _ _ _ _ _ _ _ _ E [] (mkClock 1001)
                (tx_of 5 71) eq_refl) as [_ Hdeny].
    apply Hdeny. reflexivity.
Defined.

Lemma renew_subscription_result reg sub pay sp d clk st res st' :
  subscription.renew_subscription reg sub pay sp d clk st = Ok (res, st') ->
  res = subscription.mkRenewed
          (coin.mkCoin (derive_id (tx_hash (ctx st)) (ids_created (ctx st)))
                       (space.subscription_price sp * d))
          (coin.mkCoin (coin.uid pay)
                       (coin.value pay - space.subscription_price sp * d))
          (subscription.mkSubscription
             (subscription.uid sub) (subscription.space_id sub)
             (subscription.subscriber sub) (subscription.subscribed_at sub)
             (renewal_base sub clk + d * subscription.ONE_DAY_MS)
             (subscription.duration_days sub + d)) /\
  renew_pre sub pay sp d clk st.
Proof.
  intros H.
  pose proof (renew_subscription_inv _ _ _ _ _ _ _ _ _ H) as Hpre.
  destruct (renew_subscription_ok reg sub pay sp d clk st Hpre)
    as (st0 & H0 & _).
  rewrite H in H0. injection H0 as -> _. auto.
Qed.

(** X16. A renewal that goes through never shortens a subscription and
    always leaves it valid at the time of the call: the new expiry is at
    least the old one and at least now, so the subscriber-path gate check
    passes for the subscriber at that same clock against a space with the
    subscription's id; this holds even for 0 additional days on a lapsed
    subscription, which costs nothing. Id, space, subscriber and
    subscription time are kept and [duration_days] grows by the days
    added. *)
Theorem renew_then_gate :
  forall reg sub pay sp d clock st res st',
    renew_subscription reg sub pay sp d clock st = Ok (res, st') ->
    expires_at sub <= expires_at (renewed res) /\
    timestamp_ms clock <= expires_at (renewed res) /\
    uid (renewed res) = uid sub /\
    space_id (renewed res) = space_id sub /\
    subscriber (renewed res) = subscriber sub /\
    subscribed_at (renewed res) = subscribed_at sub /\
    duration_days (renewed res) = duration_days sub + d /\
    (d = 0 -> coin.value (renewal_payment res) = 0) /\
    (forall id own st2,
       space.uid own = space_id sub ->
       tx_sender (ctx st2) = subscriber sub ->
       seal_approve_as_subscriber id own (renewed res) clock st2
       = Ok (tt, st2)).
Proof.
  intros reg sub pay sp d clock st res st' H.
  apply renew_subscription_result in H as (-> & _).
  cbn [renewed renewal_payment expires_at uid space_id subscriber
       subscribed_at duration_days coin.value].
  assert (Hb : expires_at sub <= renewal_base sub clock
               /\ timestamp_ms clock <= renewal_base sub clock).
  { unfold renewal_base.
    destruct (N.ltb_spec (expires_at sub) (timestamp_ms clock)); lia. }
  destruct Hb as [Hb1 Hb2].
  repeat split; try reflexivity; try lia.
  intros id own st2 Hown Hs.
  unfold seal_approve_as_subscriber, is_expired. tx_unfold.
  cbn [subscriber space_id expires_at].
  rewrite Hs, Hown, !N.eqb_refl.
  assert (He : (renewal_base sub clock + d * ONE_DAY_MS
                <? timestamp_ms clock) = false)
    by (apply N.ltb_ge; lia).
  now rewrite He.
Qed.

Lemma renew_then_gate_witness :
  exists res st',
    renew_subscription empty_registry fan_subscription (coin.mkCoin 60 0)
                       sample_space 0 (mkClock 3000) (tx_of 5 70)
    = Ok (res, st') /\
    expires_at (renewed res) = 3000 /\
    seal_approve_as_subscriber [] sample_space (renewed res) (mkClock 3000)
                               (tx_of 5 71) = Ok (tt, tx_of 5 71).
Proof.
  destruct (renew_subscription empty_registry fan_subscription
              (coin.mkCoin 60 0) sample_space 0 (mkClock 3000) (tx_of 5 70))
    as [[res st']|f] eqn:E; [|vm_compute in E; discriminate E].
  exists res, st'. split; [reflexivity|].
  destruct (renew_then_gate _ _ _ _ _ _ _ _ _ E)
    as (_ & _ & _ & _ & _ & _ & _ & _ & Hgate).
  split.
  - vm_compute in E. now injection E as <- _.
  - apply Hgate; reflexivity.
Defined.

Lemma renew_subscription_events reg sub pay sp d clk st res st' :
  subscription.renew_subscription reg sub pay sp d clk st = Ok (res, st') ->
  events st'
  = events st
      ++ [SubscriptionRenewed
            (subscription.uid sub)
            (subscription.expires_at (subscription.renewed res))
            (space.subscription_price sp * d)].
Proof.
  unfold subscription.renew_subscription, coin.split. tx_unfold. cbn.
  destruct (_ =? _); cbn; [|discriminate].
  destruct (_ <=? MAX_U64); cbn; [|discriminate].
  destruct (_ <=? coin.value pay); cbn; [|discriminate].
  destruct (_ <=? MAX_U64); cbn; [|discriminate].
  destruct (subscription.expires_at sub <? timestamp_ms clk); cbn;
    (destruct (_ <=? MAX_U64); cbn; [|discriminate]);
    (destruct (_ <=? MAX_U64); cbn; [|discriminate]);
    now intros [= <- <-].
Qed.

(** X17. [renew_subscription] goes through exactly when the sender is the
    subscriber, the price [subscription_price * additional_days] fits in a
    [u64] and is covered by the payment, and the new expiry and the new
    day count fit in a [u64]. From any other sender it aborts with
    [ENotSubscriber], whatever is paid; from the subscriber with a payment
    below a price that fits it aborts with [EInsufficientPayment]. When it
    goes through it emits one [SubscriptionRenewed] event with the new
    expiry and the price. *)
Theorem renew_subscription_outcomes :
  forall reg sub pay sp d clock st,
    (subscriber sub <> tx_sender (ctx st) ->
     renew_subscription reg sub pay sp d clock st
     = Fail (Abort m_subscription ENotSubscriber)) /\
    (subscriber sub = tx_sender (ctx st) ->
     space.subscription_price sp * d <= MAX_U64 ->
     coin.value pay < space.subscription_price sp * d ->
     renew_subscription reg sub pay sp d clock st
     = Fail (Abort m_subscription EInsufficientPayment)) /\
    ((exists res st',
        renew_subscription reg sub pay sp d clock st = Ok (res, st'))
     <-> subscriber sub = tx_sender (ctx st) /\
         space.subscription_price sp * d <= MAX_U64 /\
         space.subscription_price sp * d <= coin.value pay /\
         renewal_base sub clock + d * ONE_DAY_MS <= MAX_U64 /\
         duration_days sub + d <= MAX_U64) /\
    (forall res st',
       renew_subscription reg sub pay sp d clock st = Ok (res, st') ->
       events st'
       = events st
           ++ [SubscriptionRenewed
                 (uid sub)
                 (renewal_base sub clock + d * ONE_DAY_MS)
                 (space.subscription_price sp * d)]).
Proof.
  intros reg sub pay sp d clock st. split; [|split; [|split]].
  - intros Hne. unfold renew_subscription. tx_unfold. cbn.
    apply N.eqb_neq in Hne. now rewrite Hne.
  - intros Hs Hm Hlt. unfold renew_subscription. tx_unfold. cbn.
    apply N.eqb_eq in Hs. rewrite Hs. cbn.
    apply N.leb_le in Hm. rewrite Hm. cbn.
    apply N.leb_gt in Hlt. now rewrite Hlt.
  - split.
    + intros (res & st' & H).
      exact (renew_subscription_inv _ _ _ _ _ _ _ _ _ H).
    + intros Hpre.
      destruct (renew_subscription_ok reg sub pay sp d clock st Hpre)
        as (st' & H & _).
      eauto.
  - intros res st' H.
    rewrite (renew_subscription_events _ _ _ _ _ _ _ _ _ H).
    apply renew_subscription_result in H as (-> & _). reflexivity.
Qed.

Lemma renew_subscription_outcomes_witness :
  renew_subscription empty_registry fan_subscription (coin.mkCoin 60 1000)
                     sample_space 1 (mkClock 1500) (tx_of 6 70)
  = Fail (Abort m_subscription ENotSubscriber)
  /\ renew_subscription empty_registry fan_subscription (coin.mkCoin 60 99)
                        sample_space 1 (mkClock 1500) (tx_of 5 70)
     = Fail (Abort m_subscription EInsufficientPayment)
  /\ exists res st',
       renew_subscription empty_registry fan_subscription
                          (coin.mkCoin 60 100) sample_space 1 (mkClock 1500)
                          (tx_of 5 70) = Ok (res, st').
Proof.
  split; [|split].
  - apply (renew_subscription_outcomes empty_registry fan_subscription
             (coin.mkCoin 60 1000) sample_space 1 (mkClock 1500)
             (tx_of 6 70)).
    vm_compute. discriminate.
  - destruct (renew_subscription_outcomes empty_registry fan_subscription
                (coin.mkCoin 60 99) sample_space 1 (mkClock 1500)
                (tx_of 5 70)) as (_ & Hunder & _).
    apply Hunder; [reflexivity | vm_compute; discriminate | reflexivity].
  - destruct (renew_subscription_outcomes empty_registry fan_subscription
                (coin.mkCoin 60 100) sample_space 1 (mkClock 1500)
                (tx_of 5 70)) as (_ & _ & [_ Hok] & _).
    apply Hok.
    repeat split; try reflexivity; vm_compute; discriminate.
Defined.

(** X18. [subscribe] goes through exactly when the identity presented
    belongs to the sender and has an avatar, the sender is not yet in the
    index for the space, the price [subscription_price * duration_days]
    fits in a [u64] and is covered by the payment, the expiry
    [now + duration_days * ONE_DAY_MS] fits in a [u64], and both counters
    have room for one more. *)
Theorem subscribe_succeeds_iff :
  forall reg fans sp idn pay d clock st,
    (exists res st', subscribe reg fans sp idn pay d clock st = Ok (res, st'))
    <-> identity.owner idn = tx_sender (ctx st) /\
        is_some (identity.avatar_blob_id idn) = true /\
        is_subscribed_internal reg (tx_sender (ctx st)) (space.uid sp)
        = false /\
        space.subscription_price sp * d <= MAX_U64 /\
        space.subscription_price sp * d <= coin.value pay /\
        timestamp_ms clock + d * ONE_DAY_MS <= MAX_U64 /\
        total_subscriptions reg + 1 <= MAX_U64 /\
        active_subscriptions reg + 1 <= MAX_U64.
Proof.
  intros reg fans sp idn pay d clock st. split.
  - intros (res & st' & H). exact (subscribe_inv _ _ _ _ _ _ _ _ _ _ H).
  - intros Hpre.
    destruct (subscribe_ok reg fans sp idn pay d clock st Hpre)
      as (res & st' & H & _).
    eauto.
Qed.

Lemma subscribe_succeeds_iff_witness :
  (exists res st',
     subscribe empty_registry empty_fans sample_space fan_identity
               (coin.mkCoin 60 500) 5 (mkClock 1000) (tx_of 5 70)
     = Ok (res, st'))
  /\ space.subscription_price sample_space * 5 <= 500.
Proof.
  assert (H : exists res st',
             subscribe empty_registry empty_fans sample_space fan_identity
                       (coin.mkCoin 60 500) 5 (mkClock 1000) (tx_of 5 70)
             = Ok (res, st')).
  { apply (proj2 (subscribe_succeeds_iff empty_registry empty_fans
                    sample_space fan_identity (coin.mkCoin 60 500) 5
                    (mkClock 1000) (tx_of 5 70))).
    repeat split; try reflexivity; vm_compute; discriminate. }
  split; [exact H|].
  apply (proj1 (subscribe_succeeds_iff empty_registry empty_fans
                  sample_space fan_identity (coin.mkCoin 60 500) 5
                  (mkClock 1000) (tx_of 5 70)) H).
Defined.


